(** * ktzh-wa-webhook: the ingestion pipeline, embedded and verified

    The development follows the repository file by file:
    - [Crypto]      what the code uses of node's [crypto] module
                    (SHA-256, HMAC-SHA256, hex digests, [timingSafeEqual]);
    - [Js]          the JavaScript values the handlers receive (parsed JSON,
                    query parameters) and the operators the code applies to
                    them ([||], [?.], [for ... of], template literals);
    - [Privacy]     src/services/privacy.js          ([hashPhone]);
    - [MetaSignature] src/services/metaSignature.js  ([verifyMetaSignature]);
    - [Parser]      src/services/whatsappParser.js   ([extractInboundMessages]);
    - [Webhook]     src/routes/webhook.js            (the GET and POST handlers);
    - [Store]       the collection behind [Message.bulkWrite], with the
                    dates kept for the schema of src/models/Message.js;
    - src/config/mongo.js, src/app.js and src/index.js: connection,
                    health endpoints and start-up.

    Strings are [String.string]: a JavaScript string whose code units are
    below 256 (one [ascii] per code unit).  Byte buffers are [list byte]. *)

From Stdlib Require Import ZArith List Bool Lia Permutation.
From Stdlib.Strings Require Import String Ascii Byte.
From Stdlib Require Import DecimalString.
Import ListNotations.

#[local] Set Warnings "-register-all".

Local Open Scope string_scope.
Local Open Scope list_scope.
Local Open Scope Z_scope.

(* ------------------------------------------------------------------------- *)
(** ** node:crypto *)

Module Crypto.

(** 32-bit words are [Z] with the wrap-around written out. *)
Definition w32 (x : Z) : Z := x mod 2 ^ 32.
Definition add32 (x y : Z) : Z := w32 (x + y).
Definition rotr (n x : Z) : Z := Z.lor (Z.shiftr x n) (w32 (Z.shiftl x (32 - n))).
Definition shr (n x : Z) : Z := Z.shiftr x n.
Definition not32 (x : Z) : Z := Z.lxor x (2 ^ 32 - 1).

Definition Ch (x y z : Z) : Z := Z.lxor (Z.land x y) (Z.land (not32 x) z).
Definition Maj (x y z : Z) : Z :=
  Z.lxor (Z.lxor (Z.land x y) (Z.land x z)) (Z.land y z).
Definition bsig0 (x : Z) : Z := Z.lxor (Z.lxor (rotr 2 x) (rotr 13 x)) (rotr 22 x).
Definition bsig1 (x : Z) : Z := Z.lxor (Z.lxor (rotr 6 x) (rotr 11 x)) (rotr 25 x).
Definition ssig0 (x : Z) : Z := Z.lxor (Z.lxor (rotr 7 x) (rotr 18 x)) (shr 3 x).
Definition ssig1 (x : Z) : Z := Z.lxor (Z.lxor (rotr 17 x) (rotr 19 x)) (shr 10 x).

(** The round constants and the initial state are computed the way FIPS 180-4
    defines them: the first 32 bits of the fractional parts of the cube
    (resp. square) roots of the first 64 (resp. 8) primes. *)
Definition is_prime (n : nat) : bool :=
  forallb (fun d => negb (Nat.eqb (Nat.modulo n d) 0)) (seq 2 (n - 2)).

Definition primes64 : list Z :=
  Eval vm_compute in map Z.of_nat (filter is_prime (seq 2 310)).

Definition cbrt_floor (n : Z) : Z :=
  fold_left
    (fun r i => let r' := r + 2 ^ Z.of_nat i in if r' * r' * r' <=? n then r' else r)
    (rev (seq 0 40)) 0.

Definition K256 : list Z :=
  Eval vm_compute in map (fun p => w32 (cbrt_floor (p * 2 ^ 96))) primes64.

Definition state : Type := Z * Z * Z * Z * Z * Z * Z * Z.

Definition H256 : state :=
  Eval vm_compute in
    let r p := w32 (Z.sqrt (p * 2 ^ 64)) in
    (r 2, r 3, r 5, r 7, r 11, r 13, r 17, r 19).

Definition byteZ (b : byte) : Z := Z.of_N (Byte.to_N b).
Definition Zbyte (z : Z) : byte := byte_of_ascii (ascii_of_N (Z.to_N (z mod 256))).

(** Padding: 0x80, zeros up to 56 mod 64, then the bit length on 8 bytes. *)
Definition be_bytes (n : nat) (z : Z) : list byte :=
  map (fun i => Zbyte (Z.shiftr z (8 * Z.of_nat i))) (rev (seq 0 n)).

Definition pad (msg : list byte) : list byte :=
  let len := Z.of_nat (List.length msg) in
  let zeros := Z.to_nat ((55 - len) mod 64) in
  msg ++ Zbyte 128 :: repeat (Zbyte 0) zeros ++ be_bytes 8 (8 * len).

Fixpoint words (bs : list byte) : list Z :=
  match bs with
  | a :: b :: c :: d :: rest =>
      (byteZ a * 2 ^ 24 + byteZ b * 2 ^ 16 + byteZ c * 2 ^ 8 + byteZ d) :: words rest
  | _ => []
  end.

(** One round: the message schedule is a sliding window of sixteen words. *)
Definition round (sw : state * list Z) (k : Z) : state * list Z :=
  let '((a, b, c, d, e, f, g, h), w) := sw in
  let wt := nth 0 w 0 in
  let t1 := add32 (add32 (add32 (add32 h (bsig1 e)) (Ch e f g)) k) wt in
  let t2 := add32 (bsig0 a) (Maj a b c) in
  let wn := add32 (add32 (add32 (ssig1 (nth 14 w 0)) (nth 9 w 0)) (ssig0 (nth 1 w 0))) wt in
  ((add32 t1 t2, a, b, c, add32 d t1, e, f, g), tl w ++ [wn]).

Definition compress (s : state) (block : list Z) : state :=
  let '(a, b, c, d, e, f, g, h) := s in
  let '(a', b', c', d', e', f', g', h') := fst (fold_left round K256 (s, block)) in
  (add32 a a', add32 b b', add32 c c', add32 d d',
   add32 e e', add32 f f', add32 g g', add32 h h').

Fixpoint blocks (fuel : nat) (ws : list Z) (s : state) : state :=
  match fuel, ws with
  | S fuel', _ :: _ => blocks fuel' (skipn 16 ws) (compress s (firstn 16 ws))
  | _, _ => s
  end.

Definition state_bytes (s : state) : list byte :=
  let '(a, b, c, d, e, f, g, h) := s in
  flat_map (be_bytes 4) [a; b; c; d; e; f; g; h].

Definition sha256 (msg : list byte) : list byte :=
  let ws := words (pad msg) in
  state_bytes (blocks (List.length ws) ws H256).

(** HMAC (RFC 2104) with SHA-256: block size 64. *)
Definition xor_byte (x : Z) (b : byte) : byte := Zbyte (Z.lxor x (byteZ b)).

Definition hmac_sha256 (key msg : list byte) : list byte :=
  let k0 := if (64 <? List.length key)%nat then sha256 key else key in
  let k := k0 ++ repeat (Zbyte 0) (64 - List.length k0) in
  sha256 (map (xor_byte 92) k ++ sha256 (map (xor_byte 54) k ++ msg)).

(** [digest("hex")]: two lower-case digits per byte. *)
Definition hex_digit (z : Z) : ascii :=
  nth (Z.to_nat z) (list_ascii_of_string "0123456789abcdef") "0"%char.

Fixpoint hex (bs : list byte) : string :=
  match bs with
  | [] => EmptyString
  | b :: rest =>
      String (hex_digit (byteZ b / 16)) (String (hex_digit (byteZ b mod 16)) (hex rest))
  end.

(** A string handed to [Buffer.from] or [hash.update] is encoded as UTF-8:
    code units below 128 take one byte, the others (below 256 here) two. *)
Definition utf8_char (c : ascii) : list byte :=
  let n := Z.of_N (N_of_ascii c) in
  if n <? 128 then [byte_of_ascii c]
  else [Zbyte (192 + n / 64); Zbyte (128 + n mod 64)].

Fixpoint utf8 (s : string) : list byte :=
  match s with
  | EmptyString => []
  | String c rest => utf8_char c ++ utf8 rest
  end.

(** What the code can see thrown: the two errors of the language that the
    pipeline can provoke, and whatever the storage layer rejects with. *)
Inductive exn : Type :=
| TypeError
| RangeError
| StorageError (message : string).

Inductive result (A : Type) : Type :=
| Ok (a : A)
| Throw (e : exn).
Arguments Ok {A} a.
Arguments Throw {A} e.

(** [crypto.timingSafeEqual]: a [RangeError] when the byte lengths differ,
    otherwise every byte pair is visited and the differences are or-ed. *)
Definition timingSafeEqual (a b : list byte) : result bool :=
  if Nat.eqb (List.length a) (List.length b) then
    Ok (fold_left (fun acc p => Z.lor acc (Z.lxor (byteZ (fst p)) (byteZ (snd p))))
                  (combine a b) 0 =? 0)
  else Throw RangeError.

End Crypto.

Import Crypto.

(* ------------------------------------------------------------------------- *)
(** ** JavaScript values and operators *)

Module Js.

(** What [JSON.parse] and the query-string parser produce, plus [undefined]
    for an absent property.  The code never computes with a number, it only
    tests it for truthiness or passes it on: [VNum n] is an integer-valued
    number in the safe range (below 2^53 in absolute value), where the
    decimal digits of [n] are what JavaScript prints. *)
Inductive value : Type :=
| VUndefined
| VNull
| VBool (b : bool)
| VNum (n : Z)
| VStr (s : string)
| VArr (xs : list value)
| VObj (fields : list (string * value)).

(** [!v] is [negb (truthy v)]. *)
Definition truthy (v : value) : bool :=
  match v with
  | VUndefined | VNull => false
  | VBool b => b
  | VNum n => negb (n =? 0)
  | VStr s => negb (String.eqb s EmptyString)
  | VArr _ | VObj _ => true
  end.

(** [a || b] *)
Definition js_or (a b : value) : value := if truthy a then a else b.

(** [v?.k]: the own property [k] of an object (whose fields carry distinct
    names), [undefined] on [null], [undefined] and on every value that has
    no such property.  None of the
    names the program reads is an index, [length] or a prototype member, so
    strings, numbers, booleans and arrays answer [undefined]. *)
Definition get (v : value) (k : string) : value :=
  match v with
  | VObj fields =>
      match find (fun p => String.eqb (fst p) k) fields with
      | Some p => snd p
      | None => VUndefined
      end
  | _ => VUndefined
  end.

(** [for (const x of v)]: arrays yield their elements, strings their
    characters; anything else is not iterable. *)
Definition iterate (v : value) : result (list value) :=
  match v with
  | VArr xs => Ok xs
  | VStr s => Ok (map (fun c => VStr (String c EmptyString)) (list_ascii_of_string s))
  | _ => Throw TypeError
  end.

Definition bind {A B : Type} (r : result A) (k : A -> result B) : result B :=
  match r with
  | Ok a => k a
  | Throw e => Throw e
  end.

(** The body of a loop reads and updates the variables of the enclosing
    function, here the state [S]; a throw leaves the loop. *)
Fixpoint for_each {S : Type} (xs : list value) (body : value -> S -> result S) (st : S)
  : result S :=
  match xs with
  | [] => Ok st
  | x :: rest => bind (body x st) (for_each rest body)
  end.

Definition for_of {S : Type} (v : value) (body : value -> S -> result S) (st : S)
  : result S :=
  bind (iterate v) (fun xs => for_each xs body st).

(** Whether an object has an own property of that name. *)
Definition has_own (k : string) (fields : list (string * value)) : bool :=
  existsb (fun p => String.eqb (fst p) k) fields.

(** [`${v}`] and [String(v)]: ToString on the values above.  An array joins
    its elements with commas, [null] and [undefined] elements being empty.
    An object is printed by [Object.prototype.toString], unless it has an
    own property [toString]: a parsed value is never callable, so no
    primitive can be obtained from the object and a [TypeError] is thrown
    (an own [valueOf] changes nothing: the inherited one answers the
    object itself). *)
Fixpoint to_string (v : value) : result string :=
  match v with
  | VUndefined => Ok "undefined"
  | VNull => Ok "null"
  | VBool true => Ok "true"
  | VBool false => Ok "false"
  | VNum n => Ok (NilZero.string_of_int (Z.to_int n))
  | VStr s => Ok s
  | VArr xs =>
      (fix join (l : list value) : result string :=
         match l with
         | [] => Ok EmptyString
         | x :: rest =>
             bind (match x with
                   | VUndefined | VNull => Ok EmptyString
                   | _ => to_string x
                   end)
                  (fun sx =>
                     match rest with
                     | [] => Ok sx
                     | _ :: _ =>
                         bind (join rest)
                              (fun sr => Ok (String.append sx (String.append "," sr)))
                     end)
         end) xs
  | VObj fields =>
      if has_own "toString" fields then Throw TypeError else Ok "[object Object]"
  end.

(** [Number(v)]: an object or an array is first converted to a primitive,
    which goes through the same methods as ToString and throws when that
    does.  The number obtained is not computed: the date built from it
    keeps [v]. *)
Definition to_number (v : value) : result value :=
  bind (to_string v) (fun _ => Ok v).

(** [a === b] against a primitive: two primitives are compared by value; an
    array or object is only identical to itself, never to a configured
    string. *)
Definition strict_eq (a b : value) : bool :=
  match a, b with
  | VUndefined, VUndefined => true
  | VNull, VNull => true
  | VBool x, VBool y => Bool.eqb x y
  | VNum x, VNum y => x =? y
  | VStr x, VStr y => String.eqb x y
  | _, _ => false
  end.

(** Structural equality, used by the stored collection to match a filter. *)
Fixpoint value_eqb (a b : value) : bool :=
  match a, b with
  | VUndefined, VUndefined => true
  | VNull, VNull => true
  | VBool x, VBool y => Bool.eqb x y
  | VNum x, VNum y => x =? y
  | VStr x, VStr y => String.eqb x y
  | VArr xs, VArr ys =>
      (fix all2 (l1 l2 : list value) : bool :=
         match l1, l2 with
         | [], [] => true
         | x :: r1, y :: r2 => value_eqb x y && all2 r1 r2
         | _, _ => false
         end) xs ys
  | VObj fs, VObj gs =>
      (fix all2 (l1 l2 : list (string * value)) : bool :=
         match l1, l2 with
         | [], [] => true
         | (k1, x) :: r1, (k2, y) :: r2 => String.eqb k1 k2 && value_eqb x y && all2 r1 r2
         | _, _ => false
         end) fs gs
  | _, _ => false
  end.

(** A [Date]: built from the provider's epoch seconds
    ([new Date(Number(t) * 1000)], kept symbolic in the [t] that
    [to_number] let through) or read from the clock ([new Date()]). *)
Inductive date : Type :=
| DateOfSeconds (t : value)
| DateNow (clock : Z).

End Js.

Import Js.

Notation "x <- r ;; k" := (bind r (fun x => k))
  (at level 61, r at next level, right associativity).

(* ------------------------------------------------------------------------- *)
(** ** src/services/privacy.js *)

(** The template literal converts [s], then [phone]; either conversion can
    throw. *)
Definition hashPhone (phone salt : value) : result value :=
  if negb (truthy phone) then Ok VNull
  else
    let s := js_or salt (VStr EmptyString) in
    ts <- to_string s ;;
    tp <- to_string phone ;;
    Ok (VStr (hex (sha256 (utf8 (String.append ts (String.append ":" tp)))))).

(* ------------------------------------------------------------------------- *)
(** ** src/services/metaSignature.js *)

(** What the handlers read of an express request. *)
Record request : Type := {
  signature_header : option string;   (* req.get("x-hub-signature-256") *)
  rawBody : option (list byte);       (* set by the JSON parser's verify hook *)
  body : value;                       (* req.body *)
  query : value                       (* req.query *)
}.

Definition try_catch {A : Type} (r : result A) (handler : exn -> result A) : result A :=
  match r with
  | Ok a => Ok a
  | Throw e => handler e
  end.

Definition expected_signature (secret : string) (raw : option (list byte)) : string :=
  String.append "sha256="
    (hex (hmac_sha256 (utf8 secret) (match raw with Some b => b | None => [] end))).

Definition verifyMetaSignature (req : request) (appSecret : option string) : result bool :=
  match appSecret with
  | None | Some EmptyString => Ok true
  | Some secret =>
      match signature_header req with
      | None | Some EmptyString => Ok false
      | Some sig =>
          let expected := expected_signature secret (rawBody req) in
          try_catch (timingSafeEqual (utf8 sig) (utf8 expected))
                    (fun _ => Ok false)
      end
  end.

(* ------------------------------------------------------------------------- *)
(** ** src/services/whatsappParser.js *)

(** The object pushed onto [out]. *)
Record inbound : Type := {
  wa_message_id : value;
  phone_number_id : value;
  sender_phone : value;
  msg_type : value;
  text : value;
  ts : date;
  raw_message : value
}.

(** The [text] chosen by the chain of [if (type === ...)]. *)
Definition text_of (type m : value) : value :=
  if strict_eq type (VStr "text") then js_or (get (get m "text") "body") VNull
  else if strict_eq type (VStr "button") then js_or (get (get m "button") "text") VNull
  else if strict_eq type (VStr "interactive") then js_or (get (get m "interactive") "type") VNull
  else VNull.

(** The body of the innermost loop; [now] is what [new Date()] reads.  The
    only step that can throw is [Number(m.timestamp)]. *)
Definition message_record (now : Z) (phoneNumberId m : value) : result inbound :=
  let waMessageId := get m "id" in
  let from := js_or (get m "from") VNull in
  ts <- (if truthy (get m "timestamp")
         then seconds <- to_number (get m "timestamp") ;; Ok (DateOfSeconds seconds)
         else Ok (DateNow now)) ;;
  let type := js_or (get m "type") (VStr "unknown") in
  Ok {| wa_message_id := waMessageId;
        phone_number_id := phoneNumberId;
        sender_phone := from;
        msg_type := type;
        text := text_of type m;
        ts := ts;
        raw_message := m |}.

Definition extractInboundMessages (now : Z) (webhookBody : value) : result (list inbound) :=
  let entries := js_or (get webhookBody "entry") (VArr []) in
  for_of entries (fun entry out =>
    let changes := js_or (get entry "changes") (VArr []) in
    for_of changes (fun change out =>
      let value := js_or (get change "value") (VObj []) in
      let metadata := js_or (get value "metadata") (VObj []) in
      let phoneNumberId := js_or (get metadata "phone_number_id") VNull in
      let messages := js_or (get value "messages") (VArr []) in
      for_of messages (fun m out =>
        r <- message_record now phoneNumberId m ;;
        Ok (out ++ [r])) out) out) [].

(* ------------------------------------------------------------------------- *)
(** ** The collection behind [Message.bulkWrite] *)

Module Store.

(** The document of [$setOnInsert]: the fields of the schema that the
    pipeline writes. *)
Record doc : Type := {
  d_wa_message_id : value;
  d_phone_number_id : value;
  d_sender_phone_hash : value;
  d_direction : string;
  d_msg_type : value;
  d_text : value;
  d_ts : date;
  d_raw_message : value
}.

(** [{ updateOne: { filter: { wa_message_id }, update: { $setOnInsert }, upsert: true } }] *)
Record op : Type := {
  filter_id : value;
  setOnInsert : doc
}.

(** A stored record: the document, and the two dates that mongoose keeps
    for a schema declared with [timestamps: true]. *)
Record stored : Type := {
  document : doc;
  createdAt : Z;
  updatedAt : Z
}.

Definition collection : Type := list stored.

Definition matches (id : value) (s : stored) : bool :=
  value_eqb (d_wa_message_id (document s)) id.

(** [$set: { updatedAt }] on the first record that matches. *)
Fixpoint touch (id : value) (at_time : Z) (c : collection) : collection :=
  match c with
  | [] => []
  | s :: rest =>
      if matches id s
      then {| document := document s; createdAt := createdAt s; updatedAt := at_time |} :: rest
      else s :: touch id at_time rest
  end.

(** Modelled from the spec: the storage handle ([Message.bulkWrite] of
    mongoose and the database behind it) is not part of the repository.
    Sections 4.4 and 6 describe it as an atomic conditional insert keyed on
    the message id: when a record with the filter's id exists the fields
    of [$setOnInsert] are not written, otherwise the record of
    [$setOnInsert] is created.  The schema of the repository asks for
    [timestamps: true], for which mongoose adds [createdAt] to
    [$setOnInsert] and [$set: { updatedAt }] to every [updateOne]: a new
    record gets both dates, an existing one has its [updatedAt] refreshed.
    [at_time] is the instant of the [bulkWrite] call. *)
Definition upsert (at_time : Z) (o : op) (c : collection) : collection :=
  if existsb (matches (filter_id o)) c
  then touch (filter_id o) at_time c
  else c ++ [{| document := setOnInsert o; createdAt := at_time; updatedAt := at_time |}].

(** Modelled from the spec: a schedule is the order in which the storage
    layer happens to execute the atomic operations it was handed by one or
    several (overlapping) calls, each with the instant of its call. *)
Definition run (schedule : list (Z * op)) (c : collection) : collection :=
  fold_left (fun c so => upsert (fst so) (snd so) c) schedule c.

Definition lookup (id : value) (c : collection) : option stored := find (matches id) c.

Definition stored_ids (c : collection) : list value :=
  map (fun s => d_wa_message_id (document s)) c.

End Store.

Import Store.

(* ------------------------------------------------------------------------- *)
(** ** src/routes/webhook.js *)

Record response : Type := {
  status : Z;
  sent : value      (* the argument of [send]; the status text for [sendStatus] *)
}.

Definition sendStatus (code : Z) : response :=
  {| status := code;
     sent := VStr (if code =? 200 then "OK" else if code =? 403 then "Forbidden"
                   else NilZero.string_of_int (Z.to_int code)) |}.

(** A value of the configuration ([process.env]): a string or [undefined]. *)
Definition of_env (o : option string) : value :=
  match o with
  | Some s => VStr s
  | None => VUndefined
  end.

Record config : Type := {
  verifyToken : option string;
  metaAppSecret : option string;
  phoneHashSalt : option string
}.

(** [router.get("/")] *)
Definition get_handler (cfg : config) (req : request) : response :=
  let mode := get (query req) "hub.mode" in
  let token := get (query req) "hub.verify_token" in
  let challenge := get (query req) "hub.challenge" in
  if strict_eq mode (VStr "subscribe") && strict_eq token (of_env (verifyToken cfg))
  then {| status := 200; sent := challenge |}
  else sendStatus 403.

(** The element built by [.map] at lines 41-58; [hashPhone] can throw. *)
Definition to_op (salt : option string) (m : inbound) : result op :=
  hash <- hashPhone (sender_phone m) (of_env salt) ;;
  Ok {| filter_id := wa_message_id m;
        setOnInsert :=
          {| d_wa_message_id := wa_message_id m;
             d_phone_number_id := phone_number_id m;
             d_sender_phone_hash := hash;
             d_direction := "inbound";
             d_msg_type := msg_type m;
             d_text := text m;
             d_ts := ts m;
             d_raw_message := raw_message m |} |}.

(** [xs.map(f)] for a callback that can throw: the first throw ends it. *)
Fixpoint map_throwing {A B : Type} (f : A -> result B) (xs : list A) : result (list B) :=
  match xs with
  | [] => Ok []
  | x :: rest => y <- f x ;; ys <- map_throwing f rest ;; Ok (y :: ys)
  end.

(** [msgs.filter((m) => m.wa_message_id).map(...)] *)
Definition build_ops (salt : option string) (msgs : list inbound) : result (list op) :=
  map_throwing (to_op salt) (filter (fun m => truthy (wa_message_id m)) msgs).

Inductive log : Type :=
| InfoNoMessages                 (* logger.info({ kind: "webhook", note: "no messages" }) *)
| InfoSaved (n : nat)            (* logger.info({ kind: "webhook", saved: ops.length }) *)
| WebhookError (e : exn).        (* logger.error({ kind: "webhook_error", ... }) *)

(** What a POST does after the response: the batches handed to
    [Message.bulkWrite] (with [ordered: false]) and the log lines. *)
Record outcome : Type := {
  reply : response;
  written : list (list op);
  logged : list log
}.

(** [router.post("/")].  The reply is sent before the body is processed;
    whatever the processing throws is caught and logged.  [bulkWrite] is the
    storage handle: it answers whether the batch it was handed resolved. *)
Definition post_handler (cfg : config) (bulkWrite : list op -> result unit)
                        (now : Z) (req : request) : result outcome :=
  ok <- verifyMetaSignature req (metaAppSecret cfg) ;;
  if negb ok then Ok {| reply := sendStatus 403; written := []; logged := [] |}
  else
    let reply := sendStatus 200 in
    match extractInboundMessages now (body req) with
    | Throw e => Ok {| reply := reply; written := []; logged := [WebhookError e] |}
    | Ok msgs =>
        if Nat.eqb (List.length msgs) 0
        then Ok {| reply := reply; written := []; logged := [InfoNoMessages] |}
        else
          match build_ops (phoneHashSalt cfg) msgs with
          | Throw e => Ok {| reply := reply; written := []; logged := [WebhookError e] |}
          | Ok ops =>
              if Nat.eqb (List.length ops) 0
              then Ok {| reply := reply; written := []; logged := [InfoSaved 0] |}
              else
                match bulkWrite ops with
                | Ok _ =>
                    Ok {| reply := reply; written := [ops];
                          logged := [InfoSaved (List.length ops)] |}
                | Throw e =>
                    Ok {| reply := reply; written := [ops]; logged := [WebhookError e] |}
                end
          end
    end.

(* ------------------------------------------------------------------------- *)
(** ** Vocabulary of the statements *)

(** What a loop over [v || []] visits, and whether it can be entered. *)
Definition visited (v : value) : list value :=
  match iterate (js_or v (VArr [])) with
  | Ok xs => xs
  | Throw _ => []
  end.

Definition iterable (v : value) : bool :=
  match iterate (js_or v (VArr [])) with
  | Ok _ => true
  | Throw _ => false
  end.

Definition change_value (change : value) : value := js_or (get change "value") (VObj []).
Definition change_messages (change : value) : value := get (change_value change) "messages".
Definition change_channel (change : value) : value :=
  js_or (get (js_or (get (change_value change) "metadata") (VObj [])) "phone_number_id") VNull.

(** Whether a value can be converted to a primitive, hence to a string or
    a number, without a throw. *)
Definition convertible (v : value) : bool :=
  match to_string v with
  | Ok _ => true
  | Throw _ => false
  end.

(** The same, read off the value: no object with an own [toString] is
    reached, directly or through the arrays that are joined. *)
Fixpoint printable (v : value) : bool :=
  match v with
  | VArr xs =>
      (fix elements (l : list value) : bool :=
         match l with
         | [] => true
         | x :: rest => printable x && elements rest
         end) xs
  | VObj fields => negb (has_own "toString" fields)
  | _ => true
  end.

(** The timestamp of a message is absent or falsy, or can be converted to
    a number. *)
Definition timestamp_ok (m : value) : bool :=
  negb (truthy (get m "timestamp")) || convertible (get m "timestamp").

Definition shaped_change (change : value) : bool :=
  iterable (change_messages change)
  && forallb timestamp_ok (visited (change_messages change)).

(** Every level the three loops reach is absent, falsy, an array or a
    string, and every message they reach has a timestamp that is absent,
    falsy or convertible. *)
Definition shaped_entry (entry : value) : bool :=
  iterable (get entry "changes")
  && forallb shaped_change (visited (get entry "changes")).

Definition shaped (webhookBody : value) : bool :=
  iterable (get webhookBody "entry")
  && forallb shaped_entry (visited (get webhookBody "entry")).

(** The messages of an envelope in document order, each with the channel id
    of its change. *)
Definition messages_of_change (change : value) : list (value * value) :=
  map (fun m => (change_channel change, m)) (visited (change_messages change)).

Definition messages_of_entry (entry : value) : list (value * value) :=
  flat_map messages_of_change (visited (get entry "changes")).

Definition messages_of (webhookBody : value) : list (value * value) :=
  flat_map messages_of_entry (visited (get webhookBody "entry")).

(** The record the extractor pushes for message [m] of a change on channel
    [ch], when the conversion of its timestamp does not throw. *)
Definition record_of (now : Z) (p : value * value) : inbound :=
  let m := snd p in
  let type := js_or (get m "type") (VStr "unknown") in
  {| wa_message_id := get m "id";
     phone_number_id := fst p;
     sender_phone := js_or (get m "from") VNull;
     msg_type := type;
     text := text_of type m;
     ts := if truthy (get m "timestamp") then DateOfSeconds (get m "timestamp")
           else DateNow now;
     raw_message := m |}.

(** The operation built for a record, given the hash of its sender. *)
Definition op_with (hash : value) (m : inbound) : op :=
  {| filter_id := wa_message_id m;
     setOnInsert :=
       {| d_wa_message_id := wa_message_id m;
          d_phone_number_id := phone_number_id m;
          d_sender_phone_hash := hash;
          d_direction := "inbound";
          d_msg_type := msg_type m;
          d_text := text m;
          d_ts := ts m;
          d_raw_message := raw_message m |} |}.

(** What a stored record keeps for good: everything but [updatedAt]. *)
Definition core (s : stored) : doc * Z := (document s, createdAt s).

Definition is_ascii (c : ascii) : bool := (N_of_ascii c <? 128)%N.

Fixpoint all_ascii (s : string) : bool :=
  match s with
  | EmptyString => true
  | String c rest => is_ascii c && all_ascii rest
  end.

Definition is_hex_digit (c : ascii) : bool :=
  existsb (Ascii.eqb c) (list_ascii_of_string "0123456789abcdef").

Fixpoint all_hex (s : string) : bool :=
  match s with
  | EmptyString => true
  | String c rest => is_hex_digit c && all_hex rest
  end.

(** A storage handle that never rejects. *)
Definition resolving : list op -> result unit := fun _ => Ok tt.

(** A record is stored under the id it is filtered by. *)
Definition keyed (o : op) : Prop := d_wa_message_id (setOnInsert o) = filter_id o.

(* ------------------------------------------------------------------------- *)
(** ** Concrete requests and envelopes *)

Definition dq : string := String (ascii_of_nat 34) EmptyString.

(** The text [{ "entry" : [] }] without blanks, as the provider would send it. *)
Definition empty_envelope_text : string :=
  String.append "{" (String.append dq (String.append "entry" (String.append dq ":[]}"))).

Definition unsigned_request : request :=
  {| signature_header := None; rawBody := Some (utf8 "{}"); body := VObj []; query := VObj [] |}.

Definition near_miss_request : request :=
  {| signature_header :=
       Some "sha256=fce7d298b31c192908940e199fb50af2f79fe33d4e11067bb699d8fbebb073a8";
     rawBody := Some (utf8 empty_envelope_text);
     body := VObj [("entry", VArr [])];
     query := VObj [] |}.

Definition signed_request : request :=
  {| signature_header :=
       Some "sha256=fce7d298b31c192908940e199fb50af2f79fe33d4e11067bb699d8fbebb073a7";
     rawBody := Some (utf8 empty_envelope_text);
     body := VObj [("entry", VArr [])];
     query := VObj [] |}.

Definition demo_config : config :=
  {| verifyToken := Some "hunter2";
     metaAppSecret := Some "topsecret";
     phoneHashSalt := Some "pepper" |}.

Definition subscribe_request : request :=
  {| signature_header := None; rawBody := None; body := VObj [];
     query := VObj [("hub.mode", VStr "subscribe");
                    ("hub.verify_token", VStr "hunter2");
                    ("hub.challenge", VStr "1158201444")] |}.

Definition wrong_token_request : request :=
  {| signature_header := None; rawBody := None; body := VObj [];
     query := VObj [("hub.mode", VStr "subscribe");
                    ("hub.verify_token", VStr "hunter3");
                    ("hub.challenge", VStr "1158201444")] |}.

Definition change_with (channel : string) (messages : list value) : value :=
  VObj [("value", VObj [("metadata", VObj [("phone_number_id", VStr channel)]);
                        ("messages", VArr messages)])].

Definition text_message (id body : string) : value :=
  VObj [("id", VStr id); ("from", VStr "77001234567"); ("timestamp", VStr "1700000000");
        ("type", VStr "text"); ("text", VObj [("body", VStr body)])].

Definition interactive_message (id subtype : string) : value :=
  VObj [("id", VStr id); ("from", VStr "77001234567"); ("timestamp", VStr "1700000000");
        ("type", VStr "interactive");
        ("interactive", VObj [("type", VStr subtype);
                              ("button_reply", VObj [("id", VStr "b1"); ("title", VStr "Yes")])])].

(** The scenario of the specification: one entry, one change on channel
    CH1, a text message m1 and an interactive message m2. *)
Definition scenario_envelope : value :=
  VObj [("entry", VArr [VObj [("changes",
          VArr [change_with "CH1" [text_message "m1" "hi";
                                   interactive_message "m2" "button_reply"]])]])].

(** Entries with and without their intermediate levels. *)
Definition mixed_envelope : value :=
  VObj [("entry", VArr [
    VObj [];
    VObj [("changes", VArr [])];
    VObj [("changes", VArr [VObj []; VNull;
                            change_with "CH1" [text_message "m1" "hi"];
                            VObj [("value", VObj [("messages", VNull)])]])];
    VNull;
    VObj [("changes", VArr [change_with "CH2" [interactive_message "m2" "list_reply"]])]])].

(** An envelope whose [entry] is a number, and one where a valid entry is
    followed by an entry whose [changes] is an object. *)
Definition numeric_entry_envelope : value := VObj [("entry", VNum 1)].

Definition object_changes_envelope : value :=
  VObj [("entry", VArr [
    VObj [("changes", VArr [change_with "CH1" [text_message "m1" "hi"]])];
    VObj [("changes", VObj [("value", VNull)])]])].

(** A text message whose body is the empty string. *)
Definition empty_text_envelope : value :=
  VObj [("entry", VArr [VObj [("changes",
          VArr [change_with "CH1" [text_message "m1" EmptyString]])]])].

(** A message without a type. *)
Definition untyped_envelope : value :=
  VObj [("entry", VArr [VObj [("changes",
          VArr [change_with "CH1" [VObj [("id", VStr "m9"); ("text", VObj [("body", VStr "hi")])]]])]])].

(** A deployment without app secret, and a delivery whose second message
    has no id. *)
Definition open_config : config :=
  {| verifyToken := Some "hunter2"; metaAppSecret := Some EmptyString; phoneHashSalt := Some "pepper" |}.

Definition anonymous_message : value :=
  VObj [("from", VStr "77001234567"); ("type", VStr "text"); ("text", VObj [("body", VStr "lost")])].

Definition partial_envelope : value :=
  VObj [("entry", VArr [VObj [("changes",
          VArr [change_with "CH1" [text_message "m1" "hi";
                                   anonymous_message;
                                   interactive_message "m2" "button_reply"]])]])].

Definition delivery (envelope : value) : request :=
  {| signature_header := None; rawBody := None; body := envelope; query := VObj [] |}.

(** Induction on values that reaches the elements of arrays and the fields
    of objects. *)
Section ValueInduction.
Variable P : value -> Prop.
Hypothesis P_undefined : P VUndefined.
Hypothesis P_null : P VNull.
Hypothesis P_bool : forall b, P (VBool b).
Hypothesis P_num : forall n, P (VNum n).
Hypothesis P_str : forall s, P (VStr s).
Hypothesis P_arr : forall xs, Forall P xs -> P (VArr xs).
Hypothesis P_obj : forall fields, Forall (fun p => P (snd p)) fields -> P (VObj fields).

Fixpoint value_nested_ind (v : value) : P v :=
  match v with
  | VUndefined => P_undefined
  | VNull => P_null
  | VBool b => P_bool b
  | VNum n => P_num n
  | VStr s => P_str s
  | VArr xs =>
      P_arr xs
        ((fix elements (l : list value) : Forall P l :=
            match l with
            | [] => Forall_nil P
            | x :: rest => Forall_cons x (value_nested_ind x) (elements rest)
            end) xs)
  | VObj fields =>
      P_obj fields
        ((fix members (l : list (string * value)) : Forall (fun p => P (snd p)) l :=
            match l with
            | [] => Forall_nil _
            | (k, x) :: rest =>
                Forall_cons (P := fun p => P (snd p)) (k, x) (value_nested_ind x)
                            (members rest)
            end) fields)
  end.
End ValueInduction.

(** Two deliveries of the same two messages, which carry no timestamp, read
    the clock at different instants. *)
Definition untimed_message (id body : string) : value :=
  VObj [("id", VStr id); ("from", VStr "77001234567");
        ("type", VStr "text"); ("text", VObj [("body", VStr body)])].

Definition first_delivery : list inbound :=
  [record_of 1000 (VStr "CH1", untimed_message "m1" "hi");
   record_of 1000 (VStr "CH1", untimed_message "m2" "there")].

Definition second_delivery : list inbound :=
  [record_of 2000 (VStr "CH1", untimed_message "m1" "hi");
   record_of 2000 (VStr "CH1", untimed_message "m2" "there")].

(** The hash of the sender of these messages under the salt "pepper". *)
Definition pepper_hash : value :=
  VStr "1afb89d6acd1bd0dc6d663b51b40ff6b0b99a80f717768e518d3f915663dfc25".

(** An overlap of the two, each [bulkWrite] stamped with the instant of its
    call: m1 of the first delivery lands first, m2 of the second delivery
    lands before m2 of the first. *)
Definition overlapping_schedule : list (Z * op) :=
  [(1001, op_with pepper_hash (record_of 1000 (VStr "CH1", untimed_message "m1" "hi")));
   (2001, op_with pepper_hash (record_of 2000 (VStr "CH1", untimed_message "m1" "hi")));
   (2001, op_with pepper_hash (record_of 2000 (VStr "CH1", untimed_message "m2" "there")));
   (1001, op_with pepper_hash (record_of 1000 (VStr "CH1", untimed_message "m2" "there")))].

(** Handling a POST against a collection: the batches the handler hands
    over are executed in the order written, at the instant [at_time] of the
    [bulkWrite] call. *)
Definition deliver (cfg : config) (now at_time : Z) (req : request) (c : collection)
  : collection :=
  match post_handler cfg resolving now req with
  | Ok out => fold_left (fun c batch => run (map (pair at_time) batch) c) (written out) c
  | Throw _ => c
  end.

(** A message whose sender is an object with an own [toString], and one
    whose timestamp is such an object. *)
Definition opaque_sender_message : value :=
  VObj [("id", VStr "m7"); ("from", VObj [("toString", VNum 1)]);
        ("type", VStr "text"); ("text", VObj [("body", VStr "hi")])].

Definition opaque_sender_envelope : value :=
  VObj [("entry", VArr [VObj [("changes",
          VArr [change_with "CH1" [text_message "m1" "hi"; opaque_sender_message]])]])].

Definition opaque_timestamp_envelope : value :=
  VObj [("entry", VArr [VObj [("changes",
          VArr [change_with "CH1"
                  [text_message "m1" "hi";
                   VObj [("id", VStr "m8"); ("timestamp", VObj [("toString", VNum 1)])]]])]])].

(* ------------------------------------------------------------------------- *)
(** ** src/config/mongo.js *)

(** The calls made on the mongoose singleton. *)
Inductive mongoose_call : Type :=
| SetStrictQuery (on : bool)
| Connect (uri : string) (serverSelectionTimeoutMS : Z).

(** [connectMongo]: the calls made and the message of the error thrown, if
    any.  [connect] is [mongoose.connect]: it answers the message it rejects
    with, or nothing when the connection is established. *)
Definition connectMongo (connect : string -> Z -> option string) (uri : option string)
  : list mongoose_call * option string :=
  match uri with
  | None | Some EmptyString => ([], Some "MONGODB_URI is missing")
  | Some u => ([SetStrictQuery true; Connect u 10000], connect u 10000)
  end.

(** [mongoReady]: [mongoose.connection?.readyState === 1] *)
Definition mongoReady (connection : value) : bool :=
  strict_eq (get connection "readyState") (VNum 1).

(* ------------------------------------------------------------------------- *)
(** ** src/app.js: the health endpoints *)

Definition root_handler : response := {| status := 200; sent := VStr "OK" |}.

Definition healthz_handler : response :=
  {| status := 200; sent := VObj [("ok", VBool true)] |}.

Definition readyz_handler (connection : value) : response :=
  let ok := mongoReady connection in
  {| status := if ok then 200 else 503; sent := VObj [("mongo", VBool ok)] |}.

(* ------------------------------------------------------------------------- *)
(** ** src/index.js: start-up *)

(** The variables of [process.env] that the program reads: each a string,
    or absent. *)
Record process_env : Type := {
  PORT : option string;
  MONGODB_URI : option string;
  VERIFY_TOKEN : option string;
  META_APP_SECRET : option string;
  PHONE_HASH_SALT : option string
}.

(** [process.env.X || d] for a string default. *)
Definition env_or (x : option string) (d : string) : string :=
  match x with
  | Some (String c s) => String c s
  | _ => d
  end.

(** [!process.env.X] *)
Definition env_missing (x : option string) : bool :=
  match x with
  | Some (String _ _) => false
  | _ => true
  end.

(** How the start-up script ends: [process.exit] after a line on stderr,
    the rejection of the top-level [await], the failure of [app.listen],
    or a listening server with the configuration handed to [webhookRouter]
    by [createApp]. *)
Inductive boot : Type :=
| Exited (code : Z) (stderr : string)
| Rejected (message : string)
| ListenFailed (message : string)
| Listening (port : value) (cfg : config) (calls : list mongoose_call).

(** [listen] is [app.listen]: it answers the message of the error it fails
    with (a port that is not valid, a port in use), or nothing when the
    server listens. *)
Definition main (connect : string -> Z -> option string) (listen : value -> option string)
                (e : process_env) : boot :=
  let port := match PORT e with
              | Some (String c s) => VStr (String c s)
              | _ => VNum 3000
              end in
  let secret := env_or (META_APP_SECRET e) EmptyString in
  let salt := env_or (PHONE_HASH_SALT e) EmptyString in
  if env_missing (VERIFY_TOKEN e) then Exited 1 "VERIFY_TOKEN is missing"
  else if env_missing (MONGODB_URI e) then Exited 1 "MONGODB_URI is missing"
  else
    match connectMongo connect (MONGODB_URI e) with
    | (_, Some message) => Rejected message
    | (calls, None) =>
        match listen port with
        | Some message => ListenFailed message
        | None =>
            Listening port
              {| verifyToken := VERIFY_TOKEN e;
                 metaAppSecret := Some secret;
                 phoneHashSalt := Some salt |}
              calls
        end
    end.

(** A port that can always be bound. *)
Definition bindable : value -> option string := fun _ => None.

(** A database that accepts every connection. *)
Definition reachable : string -> Z -> option string := fun _ _ => None.

Definition production_env : process_env :=
  {| PORT := Some "8080";
     MONGODB_URI := Some "mongodb://db.internal/wa";
     VERIFY_TOKEN := Some "hunter2";
     META_APP_SECRET := None;
     PHONE_HASH_SALT := Some "pepper" |}.

(** Two envelopes: the entries of the scenario, and an entry on another
    channel. *)
Definition entries_envelope (entries : list value) : value := VObj [("entry", VArr entries)].

Definition scenario_entry : value :=
  VObj [("changes", VArr [change_with "CH1" [text_message "m1" "hi";
                                             interactive_message "m2" "button_reply"]])].

Definition other_entry : value :=
  VObj [("changes", VArr [change_with "CH2" [text_message "m3" "bye"]])].

(** What the pipeline only ever stores: an inbound record with an id. *)
Definition inbound_doc (d : doc) : Prop :=
  d_direction d = "inbound" /\ truthy (d_wa_message_id d) = true.

(** Two records that agree on every field but the time. *)
Definition same_but_ts (r r' : inbound) : Prop :=
  wa_message_id r = wa_message_id r'
  /\ phone_number_id r = phone_number_id r'
  /\ sender_phone r = sender_phone r'
  /\ msg_type r = msg_type r'
  /\ text r = text r'
  /\ raw_message r = raw_message r'.

(** A GET that asks to subscribe and carries no token. *)
Definition tokenless_request : request :=
  {| signature_header := None; rawBody := None; body := VObj [];
     query := VObj [("hub.mode", VStr "subscribe"); ("hub.challenge", VStr "1158201444")] |}.


(** The operations of the two deliveries above. *)
Definition first_batch : list op := map (op_with pepper_hash) first_delivery.
Definition second_batch : list op := map (op_with pepper_hash) second_delivery.

(** The operation of message m1 as first delivered. *)
Definition m1_op : op :=
  op_with pepper_hash (record_of 1000 (VStr "CH1", untimed_message "m1" "hi")).
(* ------------------------------------------------------------------------- *)
(** * Checks of the embedding against published test vectors *)

Example sha256_abc :
  hex (sha256 (utf8 "abc"))
  = "ba7816bf8f01cfea414140de5dae2223b00361a396177a9cb410ff61f20015ad".
Proof. vm_compute. reflexivity. Qed.

Example sha256_empty :
  hex (sha256 [])
  = "e3b0c44298fc1c149afbf4c8996fb92427ae41e4649b934ca495991b7852b855".
Proof. vm_compute. reflexivity. Qed.

Example sha256_two_blocks :
  hex (sha256 (utf8 "abcdbcdecdefdefgefghfghighijhijkijkljklmklmnlmnomnopnopq"))
  = "248d6a61d20638b8e5c026930c3e6039a33ce45964ff2167f6ecedd419db06c1".
Proof. vm_compute. reflexivity. Qed.

Example hmac_rfc4231_case2 :
  hex (hmac_sha256 (utf8 "Jefe") (utf8 "what do ya want for nothing?"))
  = "5bdcc146bf60754e6a042426089575c75a003f089d2739839dec58b964ec3843".
Proof. vm_compute. reflexivity. Qed.

Example hmac_rfc4231_case6 :
  hex (hmac_sha256 (repeat (Zbyte 170) 131)
         (utf8 "Test Using Larger Than Block-Size Key - Hash Key First"))
  = "60e431591ee0b67f0d8a26aacbf5b77f8e0bc6213728c5140546040f0ee37f54".
Proof. vm_compute. reflexivity. Qed.

Example utf8_two_bytes : map byteZ (utf8 (String (ascii_of_nat 233) EmptyString)) = [195; 169].
Proof. reflexivity. Qed.

(* ------------------------------------------------------------------------- *)
(** * Facts about the crypto primitives *)

Lemma byteZ_inj (a b : byte) : byteZ a = byteZ b -> a = b.
Proof.
  unfold byteZ. intros H. apply N2Z.inj in H.
  assert (E : Byte.of_N (Byte.to_N a) = Byte.of_N (Byte.to_N b)) by (now rewrite H).
  rewrite !Byte.of_to_N in E. now inversion E.
Qed.

Lemma byteZ_nonneg (a : byte) : 0 <= byteZ a.
Proof. unfold byteZ. lia. Qed.

(** The or-accumulator of [timingSafeEqual] ends at zero exactly when it
    started at zero and no pair of bytes differed. *)
Lemma or_accumulator_zero (a b : list byte) (acc : Z) :
  List.length a = List.length b ->
  fold_left (fun acc p => Z.lor acc (Z.lxor (byteZ (fst p)) (byteZ (snd p))))
            (combine a b) acc = 0
  <-> acc = 0 /\ a = b.
Proof.
  revert b acc. induction a as [|x a IH]; intros [|y b] acc Hlen; simpl in *;
    try discriminate.
  - intuition.
  - injection Hlen as Hlen. rewrite (IH b _ Hlen), Z.lor_eq_0_iff.
    split.
    + intros [[Hacc Hx] Hab]. apply Z.lxor_eq in Hx. apply byteZ_inj in Hx.
      subst. auto.
    + intros [Hacc Hab]. injection Hab as -> ->.
      rewrite Z.lxor_nilpotent. auto.
Qed.

Lemma timingSafeEqual_spec (a b : list byte) :
  timingSafeEqual a b
  = if Nat.eqb (List.length a) (List.length b)
    then Ok (if list_eq_dec Byte.byte_eq_dec a b then true else false)
    else Throw RangeError.
Proof.
  unfold timingSafeEqual. destruct (Nat.eqb_spec (List.length a) (List.length b)) as [Hlen|]; auto.
  f_equal. pose proof (or_accumulator_zero a b 0 Hlen) as H.
  destruct (list_eq_dec Byte.byte_eq_dec a b) as [->|Hne].
  - apply Z.eqb_eq, H. auto.
  - apply Z.eqb_neq. intros E. apply H in E. tauto.
Qed.

(** Whatever [timingSafeEqual] does, caught or not, it says [true] only for
    equal buffers. *)
Lemma caught_compare_true_iff (a b : list byte) :
  try_catch (timingSafeEqual a b) (fun _ => Ok false) = Ok true <-> a = b.
Proof.
  rewrite timingSafeEqual_spec.
  destruct (Nat.eqb_spec (List.length a) (List.length b)) as [Hlen|Hlen]; simpl.
  - destruct (list_eq_dec Byte.byte_eq_dec a b); split; congruence.
  - split; [discriminate|]. intros ->. contradiction.
Qed.

Lemma caught_compare_total (a b : list byte) :
  exists r, try_catch (timingSafeEqual a b) (fun _ => Ok false) = Ok r.
Proof.
  rewrite timingSafeEqual_spec.
  destruct (Nat.eqb (List.length a) (List.length b)); simpl; eauto.
Qed.

(** UTF-8 of a code unit: one byte below 128 for ASCII, otherwise a lead
    byte from 192 on. *)
Lemma utf8_char_head (c : ascii) :
  if is_ascii c then utf8_char c = [byte_of_ascii c]
  else exists b1 b2, utf8_char c = [b1; b2] /\ 192 <= byteZ b1.
Proof.
  destruct c as [[] [] [] [] [] [] [] []]; vm_compute;
    solve [reflexivity | do 2 eexists; split; [reflexivity | discriminate]].
Qed.

Lemma byteZ_of_ascii (c : ascii) : byteZ (byte_of_ascii c) = Z.of_N (N_of_ascii c).
Proof. destruct c as [[] [] [] [] [] [] [] []]; reflexivity. Qed.

Lemma byte_of_ascii_inj (c d : ascii) : byte_of_ascii c = byte_of_ascii d -> c = d.
Proof.
  intros H. rewrite <- (ascii_of_byte_of_ascii c), <- (ascii_of_byte_of_ascii d).
  now rewrite H.
Qed.

(** The encoding of a string coincides with the encoding of an ASCII string
    only when the two strings are the same. *)
Lemma utf8_ascii_inj (s e : string) :
  all_ascii e = true -> utf8 s = utf8 e -> s = e.
Proof.
  revert e. induction s as [|c s IH]; intros [|d e] He; simpl in *.
  - reflexivity.
  - apply andb_prop in He as [Hd _]. pose proof (utf8_char_head d) as Hc.
    rewrite Hd in Hc. rewrite Hc. discriminate.
  - pose proof (utf8_char_head c) as Hc. destruct (is_ascii c).
    + rewrite Hc. discriminate.
    + destruct Hc as (b1 & b2 & -> & _). discriminate.
  - apply andb_prop in He as [Hd He].
    pose proof (utf8_char_head d) as Hd'. rewrite Hd in Hd'. rewrite Hd'.
    pose proof (utf8_char_head c) as Hc. destruct (is_ascii c).
    + rewrite Hc. simpl. intros H. injection H as Hcd Hrest.
      apply byte_of_ascii_inj in Hcd. subst. f_equal. auto.
    + destruct Hc as (b1 & b2 & -> & Hb1). simpl. intros H. injection H as Hb _.
      subst b1. rewrite byteZ_of_ascii in Hb1.
      unfold is_ascii in Hd. apply N.ltb_lt in Hd. lia.
Qed.

Lemma hex_digit_is_hex (z : Z) : is_hex_digit (hex_digit z) = true.
Proof.
  unfold hex_digit. generalize (Z.to_nat z). intros n.
  do 17 (destruct n as [|n]; [reflexivity|]). reflexivity.
Qed.

Lemma hex_all_hex (bs : list byte) : all_hex (hex bs) = true.
Proof.
  induction bs as [|b bs IH]; simpl; auto.
  now rewrite !hex_digit_is_hex, IH.
Qed.

Lemma hex_length (bs : list byte) : String.length (hex bs) = (2 * List.length bs)%nat.
Proof. induction bs as [|b bs IH]; simpl; auto. rewrite IH. lia. Qed.

Lemma hex_digit_ascii (c : ascii) : is_hex_digit c = true -> is_ascii c = true.
Proof.
  unfold is_hex_digit. simpl. rewrite !orb_true_iff.
  intros H. repeat destruct H as [H|H]; try discriminate;
    apply Ascii.eqb_eq in H; subst; reflexivity.
Qed.

Lemma all_hex_ascii (s : string) : all_hex s = true -> all_ascii s = true.
Proof.
  induction s as [|c s IH]; simpl; auto.
  intros H. apply andb_prop in H as [Hc Hs]. now rewrite (hex_digit_ascii c Hc), IH.
Qed.

Lemma all_ascii_append (s t : string) :
  all_ascii (String.append s t) = all_ascii s && all_ascii t.
Proof. induction s as [|c s IH]; simpl; auto. now rewrite IH, andb_assoc. Qed.

Lemma expected_signature_ascii (secret : string) (raw : option (list byte)) :
  all_ascii (expected_signature secret raw) = true.
Proof.
  unfold expected_signature. rewrite all_ascii_append.
  now rewrite (all_hex_ascii _ (hex_all_hex _)).
Qed.

(** A SHA-256 digest has 32 bytes, its hex form 64 digits. *)
Lemma be_bytes_length (n : nat) (z : Z) : List.length (be_bytes n z) = n.
Proof. unfold be_bytes. now rewrite length_map, length_rev, length_seq. Qed.

Lemma sha256_length (msg : list byte) : List.length (sha256 msg) = 32%nat.
Proof.
  unfold sha256. generalize (blocks (List.length (words (pad msg))) (words (pad msg)) H256).
  intros [[[[[[[a b] c] d] e] f] g] h]. unfold state_bytes.
  rewrite length_flat_map. reflexivity.
Qed.

Lemma sha256_hex_length (msg : list byte) : String.length (hex (sha256 msg)) = 64%nat.
Proof. now rewrite hex_length, sha256_length. Qed.

(* ------------------------------------------------------------------------- *)
(** * The signature verifier *)

(** With a configured secret and a non-empty header, the verifier answers
    whether the header is the expected string. *)
Lemma verify_with_secret (req : request) (c : ascii) (secret sig : string) :
  signature_header req = Some sig -> sig <> EmptyString ->
  verifyMetaSignature req (Some (String c secret))
  = Ok (String.eqb sig (expected_signature (String c secret) (rawBody req))).
Proof.
  intros Hsig Hne. unfold verifyMetaSignature. rewrite Hsig.
  destruct sig as [|d sig]; [contradiction|].
  set (e := expected_signature _ _).
  destruct (caught_compare_total (utf8 (String d sig)) (utf8 e)) as [r Hr].
  rewrite Hr. f_equal.
  destruct r.
  - apply caught_compare_true_iff, utf8_ascii_inj in Hr.
    + rewrite Hr. symmetry. apply String.eqb_refl.
    + apply expected_signature_ascii.
  - symmetry. apply String.eqb_neq. intros E.
    assert (H : try_catch (timingSafeEqual (utf8 (String d sig)) (utf8 e))
                          (fun _ => Ok false) = Ok true)
      by (apply caught_compare_true_iff; now rewrite E).
    congruence.
Qed.

Lemma verify_accepts_expected (req : request) (c : ascii) (secret : string) :
  signature_header req = Some (expected_signature (String c secret) (rawBody req)) ->
  verifyMetaSignature req (Some (String c secret)) = Ok true.
Proof.
  intros H. rewrite (verify_with_secret req c secret _ H).
  - now rewrite String.eqb_refl.
  - unfold expected_signature. discriminate.
Qed.

(** C2. With a non-empty secret configured, verification answers false
    when the signature header is absent, answers false for every header
    value other than ["sha256="] followed by the hex HMAC-SHA256 of the raw
    body under the secret, and always answers: the [RangeError] that
    [timingSafeEqual] raises on a header of another length is caught and
    turned into false. *)
Theorem verify_rejects_wrong_signature (req : request) (secret : string) :
  secret <> EmptyString ->
  (signature_header req = None -> verifyMetaSignature req (Some secret) = Ok false)
  /\ (forall sig, signature_header req = Some sig ->
                  sig <> expected_signature secret (rawBody req) ->
                  verifyMetaSignature req (Some secret) = Ok false)
  /\ (forall sig, signature_header req = Some sig ->
                  List.length (utf8 sig)
                    <> List.length (utf8 (expected_signature secret (rawBody req))) ->
                  timingSafeEqual (utf8 sig) (utf8 (expected_signature secret (rawBody req)))
                    = Throw RangeError
                  /\ verifyMetaSignature req (Some secret) = Ok false)
  /\ (exists b, verifyMetaSignature req (Some secret) = Ok b).
Proof.
  intros Hsecret. destruct secret as [|c secret]; [contradiction|].
  assert (Hwrong : forall sig, signature_header req = Some sig ->
                     sig <> expected_signature (String c secret) (rawBody req) ->
                     verifyMetaSignature req (Some (String c secret)) = Ok false).
  { intros sig Hsig Hne. destruct sig as [|d sig].
    - unfold verifyMetaSignature. now rewrite Hsig.
    - rewrite (verify_with_secret req c secret _ Hsig) by discriminate.
      f_equal. now apply String.eqb_neq. }
  split; [|split; [|split]].
  - intros Hnone. unfold verifyMetaSignature. now rewrite Hnone.
  - exact Hwrong.
  - intros sig Hsig Hlen. split.
    + rewrite timingSafeEqual_spec. apply Nat.eqb_neq in Hlen. now rewrite Hlen.
    + apply (Hwrong sig Hsig). intros E. apply Hlen. now rewrite E.
  - destruct (signature_header req) as [sig|] eqn:Hsig.
    + destruct sig as [|d sig].
      * exists false. unfold verifyMetaSignature. now rewrite Hsig.
      * eexists. apply (verify_with_secret req c secret _ Hsig). discriminate.
    + exists false. unfold verifyMetaSignature. now rewrite Hsig.
Qed.

Lemma verify_rejects_wrong_signature_witness :
  "topsecret" <> EmptyString
  /\ verifyMetaSignature unsigned_request (Some "topsecret") = Ok false
  /\ verifyMetaSignature near_miss_request (Some "topsecret") = Ok false.
Proof.
  assert (Hs : "topsecret" <> EmptyString) by discriminate.
  split; [exact Hs|]. split.
  - exact (proj1 (verify_rejects_wrong_signature unsigned_request "topsecret" Hs) eq_refl).
  - refine (proj1 (proj2 (verify_rejects_wrong_signature near_miss_request "topsecret" Hs))
                  _ eq_refl _).
    vm_compute. discriminate.
Defined.

Example verify_accepts_signed_request :
  verifyMetaSignature signed_request (Some "topsecret") = Ok true.
Proof. vm_compute. reflexivity. Qed.

Example verify_catches_short_header :
  let req := {| signature_header := Some "sha256=abc"; rawBody := None;
                body := VObj []; query := VObj [] |} in
  timingSafeEqual (utf8 "sha256=abc") (utf8 (expected_signature "topsecret" None))
    = Throw RangeError
  /\ verifyMetaSignature req (Some "topsecret") = Ok false.
Proof. vm_compute. split; reflexivity. Qed.

(** C3. When no secret is configured (absent or empty), verification
    answers true for every request: any raw body, any signature header,
    an absent header included. *)
Theorem verify_bypassed_without_secret (req : request) :
  verifyMetaSignature req None = Ok true
  /\ verifyMetaSignature req (Some EmptyString) = Ok true.
Proof. split; reflexivity. Qed.

(* ------------------------------------------------------------------------- *)
(** * The verification endpoint *)

Lemma strict_eq_string (v : value) (s : string) :
  strict_eq v (VStr s) = true <-> v = VStr s.
Proof.
  destruct v; simpl; try (split; [discriminate | intros H; discriminate H]).
  rewrite String.eqb_eq. split; [now intros -> | now intros [= ->]].
Qed.

Lemma strict_eq_env (v : value) (o : option string) :
  strict_eq v (of_env o) = true <-> v = of_env o.
Proof.
  destruct o as [s|]; simpl.
  - apply strict_eq_string.
  - destruct v; simpl; split; try discriminate; auto.
Qed.

(** C8. A GET is answered with status 200 exactly when the mode
    parameter is "subscribe" and the supplied token is the configured verify
    token; the body is then the supplied challenge, verbatim.  Every other
    GET is answered with status 403. *)
Theorem get_handler_challenge (cfg : config) (req : request) :
  let mode := get (query req) "hub.mode" in
  let token := get (query req) "hub.verify_token" in
  let challenge := get (query req) "hub.challenge" in
  (mode = VStr "subscribe" /\ token = of_env (verifyToken cfg)
   -> get_handler cfg req = {| status := 200; sent := challenge |})
  /\ (~ (mode = VStr "subscribe" /\ token = of_env (verifyToken cfg))
      -> status (get_handler cfg req) = 403)
  /\ (status (get_handler cfg req) = 200
      <-> mode = VStr "subscribe" /\ token = of_env (verifyToken cfg)).
Proof.
  intros mode token challenge. unfold get_handler. fold mode token challenge.
  destruct (strict_eq mode (VStr "subscribe")) eqn:Hm;
    destruct (strict_eq token (of_env (verifyToken cfg))) eqn:Ht; simpl;
    try (apply strict_eq_string in Hm); try (apply strict_eq_env in Ht).
  - repeat split; auto. intros H. now destruct H.
  - assert (N : ~ (mode = VStr "subscribe" /\ token = of_env (verifyToken cfg))).
    { intros [_ E]. apply strict_eq_env in E. congruence. }
    repeat split; try tauto; discriminate.
  - assert (N : ~ (mode = VStr "subscribe" /\ token = of_env (verifyToken cfg))).
    { intros [E _]. apply strict_eq_string in E. congruence. }
    repeat split; try tauto; discriminate.
  - assert (N : ~ (mode = VStr "subscribe" /\ token = of_env (verifyToken cfg))).
    { intros [E _]. apply strict_eq_string in E. congruence. }
    repeat split; try tauto; discriminate.
Qed.

Lemma get_handler_challenge_witness :
  get_handler demo_config subscribe_request = {| status := 200; sent := VStr "1158201444" |}
  /\ status (get_handler demo_config wrong_token_request) = 403.
Proof.
  split.
  - apply (proj1 (get_handler_challenge demo_config subscribe_request)).
    split; reflexivity.
  - apply (proj1 (proj2 (get_handler_challenge demo_config wrong_token_request))).
    intros [_ H]. discriminate H.
Defined.

(* ------------------------------------------------------------------------- *)
(** * Conversions to string and number *)

(** The element of an array as [join] prints it. *)
Lemma to_string_element (x : value) :
  (if printable x then exists s, to_string x = Ok s else to_string x = Throw TypeError) ->
  if printable x
  then exists s, match x with
                 | VUndefined | VNull => Ok EmptyString
                 | _ => to_string x
                 end = Ok s
  else match x with
       | VUndefined | VNull => Ok EmptyString
       | _ => to_string x
       end = Throw TypeError.
Proof. destruct x; simpl; eauto. Qed.

(** ToString succeeds exactly on the printable values, and throws a
    [TypeError] on the others. *)
Lemma to_string_cases (v : value) :
  if printable v then exists s, to_string v = Ok s else to_string v = Throw TypeError.
Proof.
  induction v using value_nested_ind; simpl; eauto.
  - destruct b; eauto.
  - induction H as [|x xs Hx _ IH]; [simpl; eauto|].
    apply to_string_element in Hx.
    destruct xs as [|y ys].
    + rewrite andb_true_r. destruct (printable x).
      * destruct Hx as [sx ->]. simpl. eauto.
      * rewrite Hx. reflexivity.
    + match type of IH with
      | if ?E then (exists s, ?J = Ok s) else _ => set (els := E) in *; set (jn := J) in *
      end.
      destruct (printable x).
      * destruct Hx as [sx ->]. simpl. destruct els.
        -- destruct IH as [sr ->]. simpl. eauto.
        -- rewrite IH. reflexivity.
      * rewrite Hx. reflexivity.
  - destruct (has_own "toString" fields); simpl; eauto.
Qed.

Lemma convertible_printable (v : value) : convertible v = printable v.
Proof.
  unfold convertible. pose proof (to_string_cases v) as H.
  destruct (printable v); [destruct H as [s ->] | rewrite H]; reflexivity.
Qed.

Lemma to_string_throws (v : value) (e : exn) : to_string v = Throw e -> e = TypeError.
Proof.
  pose proof (to_string_cases v) as H. destruct (printable v).
  - destruct H as [s ->]. discriminate.
  - rewrite H. now intros [= <-].
Qed.

Lemma to_number_cases (v : value) :
  to_number v = if convertible v then Ok v else Throw TypeError.
Proof.
  unfold to_number, convertible. destruct (to_string v) as [s|e] eqn:E; simpl; auto.
  now rewrite (to_string_throws v e E).
Qed.

Lemma to_string_string (s : string) : to_string (VStr s) = Ok s.
Proof. reflexivity. Qed.

(* ------------------------------------------------------------------------- *)
(** * The payload extractor *)

Section Loops.
Context {B : Type}.

(** A loop whose body appends [g x] to the accumulator, or throws when
    [ok x] fails, appends the [g x] in order, or throws. *)
Lemma for_each_collect (ok : value -> bool) (g : value -> list B)
      (body : value -> list B -> result (list B)) :
  (forall x st, body x st = if ok x then Ok (st ++ g x) else Throw TypeError) ->
  forall xs st,
    for_each xs body st
    = if forallb ok xs then Ok (st ++ flat_map g xs) else Throw TypeError.
Proof.
  intros Hbody. induction xs as [|x xs IH]; intros st; simpl.
  - now rewrite app_nil_r.
  - rewrite Hbody. destruct (ok x); simpl; [|reflexivity].
    rewrite IH. now rewrite app_assoc.
Qed.

Lemma for_of_or_empty (v : value) (body : value -> list B -> result (list B)) (st : list B) :
  for_of (js_or v (VArr [])) body st
  = if iterable v then for_each (visited v) body st else Throw TypeError.
Proof.
  unfold for_of, iterable, visited.
  destruct (iterate (js_or v (VArr []))) as [xs|e] eqn:E; simpl; [reflexivity|].
  destruct (js_or v (VArr [])); simpl in E; congruence.
Qed.
End Loops.

Lemma flat_map_singleton {A B : Type} (f : A -> B) (l : list A) :
  flat_map (fun x => [f x]) l = map f l.
Proof. induction l as [|x l IH]; simpl; congruence. Qed.

Lemma map_flat_map_comm {A B C : Type} (f : B -> C) (g : A -> list B) (l : list A) :
  map f (flat_map g l) = flat_map (fun x => map f (g x)) l.
Proof. induction l as [|x l IH]; simpl; auto. now rewrite map_app, IH. Qed.

(** The body of the innermost loop: the record, unless the timestamp is a
    truthy value that cannot be converted. *)
Lemma message_record_cases (now : Z) (ch m : value) :
  message_record now ch m
  = if timestamp_ok m then Ok (record_of now (ch, m)) else Throw TypeError.
Proof.
  unfold message_record, timestamp_ok, record_of. simpl fst. simpl snd.
  destruct (truthy (get m "timestamp")); simpl; [|reflexivity].
  rewrite to_number_cases. destruct (convertible (get m "timestamp")); reflexivity.
Qed.

Lemma messages_loop (now : Z) (change : value) (out : list inbound) :
  for_of (js_or (change_messages change) (VArr []))
         (fun m out => r <- message_record now (change_channel change) m ;; Ok (out ++ [r]))
         out
  = if shaped_change change
    then Ok (out ++ map (record_of now) (messages_of_change change))
    else Throw TypeError.
Proof.
  rewrite for_of_or_empty. unfold shaped_change.
  destruct (iterable (change_messages change)); [|reflexivity]. simpl.
  rewrite (for_each_collect timestamp_ok
             (fun m => [record_of now (change_channel change, m)])).
  - rewrite flat_map_singleton. unfold messages_of_change. now rewrite map_map.
  - intros m st. rewrite message_record_cases. destruct (timestamp_ok m); reflexivity.
Qed.

Lemma changes_loop (now : Z) (entry : value) (out : list inbound) :
  for_of (js_or (get entry "changes") (VArr []))
         (fun change out =>
            for_of (js_or (change_messages change) (VArr []))
                   (fun m out =>
                      r <- message_record now (change_channel change) m ;; Ok (out ++ [r]))
                   out) out
  = if shaped_entry entry
    then Ok (out ++ map (record_of now) (messages_of_entry entry))
    else Throw TypeError.
Proof.
  rewrite for_of_or_empty. unfold shaped_entry.
  destruct (iterable (get entry "changes")); [|reflexivity]. simpl.
  rewrite (for_each_collect shaped_change
             (fun change => map (record_of now) (messages_of_change change)))
    by (intros; apply messages_loop).
  unfold messages_of_entry. now rewrite map_flat_map_comm.
Qed.

(** The extractor, as a function of the envelope: the records of all
    visited messages in document order when every level can be iterated
    and every timestamp converted, a [TypeError] otherwise. *)
Lemma extract_spec (now : Z) (webhookBody : value) :
  extractInboundMessages now webhookBody
  = if shaped webhookBody
    then Ok (map (record_of now) (messages_of webhookBody))
    else Throw TypeError.
Proof.
  unfold extractInboundMessages.
  change (for_of (js_or (get webhookBody "entry") (VArr []))
            (fun entry out =>
               for_of (js_or (get entry "changes") (VArr []))
                 (fun change out =>
                    for_of (js_or (change_messages change) (VArr []))
                      (fun m out =>
                         r <- message_record now (change_channel change) m ;;
                         Ok (out ++ [r]))
                      out) out) []
          = if shaped webhookBody
            then Ok (map (record_of now) (messages_of webhookBody))
            else Throw TypeError).
  rewrite for_of_or_empty. unfold shaped.
  destruct (iterable (get webhookBody "entry")); [|reflexivity]. simpl.
  rewrite (for_each_collect shaped_entry
             (fun entry => map (record_of now) (messages_of_entry entry)))
    by (intros; apply changes_loop).
  unfold messages_of. now rewrite map_flat_map_comm.
Qed.

Lemma extracted_record (now : Z) (webhookBody : value) (rs : list inbound) (r : inbound) :
  extractInboundMessages now webhookBody = Ok rs -> In r rs ->
  exists ch, r = record_of now (ch, raw_message r).
Proof.
  rewrite extract_spec. destruct (shaped webhookBody); [|discriminate].
  intros [= <-] Hin. apply in_map_iff in Hin as ([ch m] & <- & _).
  exists ch. reflexivity.
Qed.

(** A level can be iterated when it is absent or falsy (the loop then runs
    over the empty array), an array, or a string. *)
Lemma iterable_iff (v : value) :
  iterable v = true
  <-> truthy v = false \/ (exists xs, v = VArr xs) \/ (exists s, v = VStr s).
Proof.
  unfold iterable, js_or. destruct (truthy v) eqn:T.
  - destruct v; simpl; split; intros H; try discriminate; eauto;
      destruct H as [H|[[xs H]|[s H]]]; discriminate.
  - simpl. split; auto.
Qed.

Lemma visited_falsy (v : value) : truthy v = false -> visited v = [].
Proof. unfold visited, js_or. now intros ->. Qed.

Lemma visited_array (xs : list value) : visited (VArr xs) = xs.
Proof. reflexivity. Qed.

(** A timestamp is acceptable when it is absent or falsy, or when no
    object with an own [toString] is reached in it: every string, number
    and boolean is, an object is unless it has that property, an array is
    when its elements are. *)
Lemma timestamp_ok_iff (m : value) :
  timestamp_ok m = true
  <-> truthy (get m "timestamp") = false \/ printable (get m "timestamp") = true.
Proof.
  unfold timestamp_ok. rewrite convertible_printable, orb_true_iff, negb_true_iff.
  reflexivity.
Qed.

(** C5, as the code has it. For every envelope whose entry, changes
    and messages levels are each absent, falsy, an array or a string, and
    whose messages each have a timestamp that is absent, falsy or
    convertible to a number ([shaped]; absent or empty value and metadata
    levels included), extraction returns, without raising, one record per
    element of the messages levels and nothing else, in document order.
    When one of these levels is a truthy value that cannot be iterated, or
    a timestamp a truthy value that cannot be converted, extraction raises
    a [TypeError]. *)
Theorem extraction_on_iterable_levels (now : Z) (webhookBody : value) :
  (shaped webhookBody = true ->
   exists rs, extractInboundMessages now webhookBody = Ok rs
              /\ rs = map (record_of now) (messages_of webhookBody)
              /\ map raw_message rs = map snd (messages_of webhookBody))
  /\ (shaped webhookBody = false ->
      extractInboundMessages now webhookBody = Throw TypeError).
Proof.
  rewrite extract_spec. split; intros ->; [|reflexivity].
  eexists. split; [reflexivity|]. split; [reflexivity|].
  rewrite map_map. apply map_ext. now intros [ch m].
Qed.

Lemma extraction_on_iterable_levels_witness :
  shaped mixed_envelope = true
  /\ exists rs, extractInboundMessages 0 mixed_envelope = Ok rs
                /\ rs = map (record_of 0) (messages_of mixed_envelope)
                /\ map raw_message rs = map snd (messages_of mixed_envelope).
Proof.
  split; [reflexivity|].
  apply (proj1 (extraction_on_iterable_levels 0 mixed_envelope)). reflexivity.
Defined.

Example mixed_envelope_messages :
  map snd (messages_of mixed_envelope)
  = [text_message "m1" "hi"; interactive_message "m2" "list_reply"].
Proof. reflexivity. Qed.

(** C5 as stated fails: an envelope whose [entry] is a number makes the
    outer loop throw. *)
Lemma extraction_throws_on_numeric_entry :
  extractInboundMessages 0 numeric_entry_envelope = Throw TypeError
  /\ ~ (exists rs, extractInboundMessages 0 numeric_entry_envelope = Ok rs).
Proof. split; [reflexivity|]. intros [rs H]. discriminate H. Qed.

(** The throw discards what the earlier, valid entries had produced. *)
Example extraction_throw_loses_siblings :
  extractInboundMessages 0 object_changes_envelope = Throw TypeError.
Proof. reflexivity. Qed.

(** A timestamp that is an object with an own [toString] makes
    [Number(m.timestamp)] throw, although every level can be iterated. *)
Example extraction_throws_on_opaque_timestamp :
  shaped opaque_timestamp_envelope = false
  /\ extractInboundMessages 0 opaque_timestamp_envelope = Throw TypeError.
Proof. split; reflexivity. Qed.

(** C6, as the code has it. For every extracted record, the text
    follows the message type: type "text" gives the nested text body
    field, "button" the nested button text field, "interactive" the
    interactive sub-type name, each when that field is truthy and null when
    it is absent or falsy (empty); every other type gives null. *)
Theorem text_follows_type (now : Z) (webhookBody : value) (rs : list inbound) (r : inbound) :
  extractInboundMessages now webhookBody = Ok rs -> In r rs ->
  let m := raw_message r in
  (msg_type r = VStr "text" -> text r = js_or (get (get m "text") "body") VNull)
  /\ (msg_type r = VStr "button" -> text r = js_or (get (get m "button") "text") VNull)
  /\ (msg_type r = VStr "interactive" ->
      text r = js_or (get (get m "interactive") "type") VNull)
  /\ (msg_type r <> VStr "text" -> msg_type r <> VStr "button" ->
      msg_type r <> VStr "interactive" -> text r = VNull).
Proof.
  intros Hex Hin m. destruct (extracted_record now webhookBody rs r Hex Hin) as [ch Hr].
  subst m. rewrite Hr. simpl. unfold text_of.
  set (ty := js_or (get (raw_message r) "type") (VStr "unknown")).
  repeat split.
  - intros ->. reflexivity.
  - intros ->. reflexivity.
  - intros ->. reflexivity.
  - intros H1 H2 H3.
    destruct (strict_eq ty (VStr "text")) eqn:E1;
      [apply strict_eq_string in E1; contradiction|].
    destruct (strict_eq ty (VStr "button")) eqn:E2;
      [apply strict_eq_string in E2; contradiction|].
    destruct (strict_eq ty (VStr "interactive")) eqn:E3;
      [apply strict_eq_string in E3; contradiction|].
    reflexivity.
Qed.

Lemma text_follows_type_witness :
  exists r1 r2,
    extractInboundMessages 0 scenario_envelope = Ok [r1; r2]
    /\ (msg_type r1 = VStr "text" /\ text r1 = VStr "hi")
    /\ (msg_type r2 = VStr "interactive" /\ text r2 = VStr "button_reply").
Proof.
  exists (record_of 0 (VStr "CH1", text_message "m1" "hi")),
         (record_of 0 (VStr "CH1", interactive_message "m2" "button_reply")).
  split; [reflexivity|]. split; (split; [reflexivity|]).
  - apply (proj1 (text_follows_type 0 scenario_envelope _ _ eq_refl (or_introl eq_refl))).
    reflexivity.
  - apply (proj1 (proj2 (proj2
             (text_follows_type 0 scenario_envelope _ _ eq_refl (or_intror (or_introl eq_refl)))))).
    reflexivity.
Defined.

(** C6 as stated fails: a text message whose body is the empty string is
    extracted with a null text, not with its body field. *)
Lemma empty_text_body_becomes_null :
  exists r,
    extractInboundMessages 0 empty_text_envelope = Ok [r]
    /\ msg_type r = VStr "text"
    /\ get (get (raw_message r) "text") "body" = VStr EmptyString
    /\ text r = VNull
    /\ text r <> get (get (raw_message r) "text") "body".
Proof.
  eexists. split; [reflexivity|]. repeat split. discriminate.
Qed.

(** C9. For every message whose type field is absent, null or empty,
    the extracted record has the message type "unknown" and a null text. *)
Theorem missing_type_is_unknown (now : Z) (webhookBody : value) (rs : list inbound)
        (r : inbound) :
  extractInboundMessages now webhookBody = Ok rs -> In r rs ->
  get (raw_message r) "type" = VUndefined
  \/ get (raw_message r) "type" = VNull
  \/ get (raw_message r) "type" = VStr EmptyString ->
  msg_type r = VStr "unknown" /\ text r = VNull.
Proof.
  intros Hex Hin Hty. destruct (extracted_record now webhookBody rs r Hex Hin) as [ch Hr].
  rewrite Hr. simpl.
  assert (E : js_or (get (raw_message r) "type") (VStr "unknown") = VStr "unknown")
    by (destruct Hty as [->|[->| ->]]; reflexivity).
  rewrite E. split; reflexivity.
Qed.

Lemma missing_type_is_unknown_witness :
  exists r,
    extractInboundMessages 0 untyped_envelope = Ok [r]
    /\ get (raw_message r) "type" = VUndefined
    /\ msg_type r = VStr "unknown" /\ text r = VNull.
Proof.
  eexists. split; [reflexivity|]. split; [reflexivity|].
  apply (missing_type_is_unknown 0 untyped_envelope _ _ eq_refl (or_introl eq_refl)).
  left. reflexivity.
Defined.


(* ------------------------------------------------------------------------- *)
(** * The privacy hasher *)

Lemma nonempty_truthy (p : string) : p <> EmptyString -> truthy (VStr p) = true.
Proof. destruct p; [contradiction | reflexivity]. Qed.

(** C4, as the code has it. For a null, absent or empty phone the hasher
    returns null.  For a non-empty phone and any salt it returns the hex
    encoding of the SHA-256 digest of the salt, a colon, and the phone
    number, concatenated in that order; equal (phone, salt) inputs give
    equal outputs. *)
Theorem hashPhone_digest :
  (forall salt, hashPhone VNull salt = Ok VNull
                /\ hashPhone VUndefined salt = Ok VNull
                /\ hashPhone (VStr EmptyString) salt = Ok VNull)
  /\ (forall p s, p <> EmptyString ->
        hashPhone (VStr p) (VStr s)
        = Ok (VStr (hex (sha256 (utf8 (String.append s (String.append ":" p)))))))
  /\ (forall phone salt phone' salt',
        phone = phone' -> salt = salt' -> hashPhone phone salt = hashPhone phone' salt').
Proof.
  split; [|split].
  - intros salt. repeat split.
  - intros p s Hp. unfold hashPhone. rewrite (nonempty_truthy p Hp). simpl.
    unfold js_or. destruct s; reflexivity.
  - intros phone salt phone' salt' -> ->. reflexivity.
Qed.

Lemma hashPhone_digest_witness :
  "77001234567" <> EmptyString
  /\ hashPhone (VStr "77001234567") (VStr "pepper")
     = Ok (VStr (hex (sha256 (utf8 "pepper:77001234567")))).
Proof.
  split; [discriminate|].
  apply (proj1 (proj2 hashPhone_digest) "77001234567" "pepper"). discriminate.
Defined.

(** C4 as stated fails: the digest is not that of salt and phone number
    put side by side. *)
Lemma hashPhone_is_not_plain_concatenation :
  hashPhone (VStr "1") (VStr "s")
  = Ok (VStr "1b25f38c1aa8553b03240e793e2562c520496a0469d683b8fcf52ce8206a7e81")
  /\ VStr (hex (sha256 (utf8 (String.append "s" "1"))))
     = VStr "e8bc163c82eee18733288c7d4ac636db3a6deb013ef2d37b68322be20edc45cc"
  /\ hashPhone (VStr "1") (VStr "s")
     <> Ok (VStr (hex (sha256 (utf8 (String.append "s" "1"))))).
Proof.
  split; [vm_compute; reflexivity|]. split; [vm_compute; reflexivity|].
  vm_compute. discriminate.
Qed.

(** C10. For a non-empty phone, a null, absent or empty salt is taken as
    the empty string: the hasher returns what it returns for the empty salt,
    the 64 hex digits of the SHA-256 digest of a colon followed by the
    phone number; it does not raise and does not return null. *)
Theorem hashPhone_tolerates_missing_salt (p : string) (salt : value) :
  p <> EmptyString ->
  salt = VUndefined \/ salt = VNull \/ salt = VStr EmptyString ->
  hashPhone (VStr p) salt = hashPhone (VStr p) (VStr EmptyString)
  /\ exists digest,
       hashPhone (VStr p) salt = Ok (VStr digest)
       /\ digest = hex (sha256 (utf8 (String.append ":" p)))
       /\ String.length digest = 64%nat
       /\ all_hex digest = true.
Proof.
  intros Hp Hsalt. unfold hashPhone. rewrite (nonempty_truthy p Hp). simpl.
  assert (E : js_or salt (VStr EmptyString) = VStr EmptyString)
    by (destruct Hsalt as [->|[->| ->]]; reflexivity).
  rewrite E. simpl. split; [reflexivity|].
  eexists. split; [reflexivity|]. split; [reflexivity|].
  split; [apply sha256_hex_length | apply hex_all_hex].
Qed.

Lemma hashPhone_tolerates_missing_salt_witness :
  "77001234567" <> EmptyString
  /\ hashPhone (VStr "77001234567") VNull = hashPhone (VStr "77001234567") (VStr EmptyString)
  /\ hashPhone (VStr "77001234567") VUndefined
     = Ok (VStr "0ec78d778e4204d3b5eceafa3cf68fc1f3f106930a9d851cafd34b9ff17a7e12").
Proof.
  assert (Hp : "77001234567" <> EmptyString) by discriminate.
  split; [exact Hp|]. split.
  - exact (proj1 (hashPhone_tolerates_missing_salt "77001234567" VNull Hp
                    (or_intror (or_introl eq_refl)))).
  - destruct (proj2 (hashPhone_tolerates_missing_salt "77001234567" VUndefined Hp
                       (or_introl eq_refl))) as (digest & -> & -> & _).
    vm_compute. reflexivity.
Defined.

Example hashPhone_non_ascii :
  hashPhone (VStr (String (ascii_of_nat 233) EmptyString)) (VStr "pepper")
  = Ok (VStr "059e059139f726b8af991b817b48371cbdcc4836220b8d4360b83ab9e3782bca").
Proof. vm_compute. reflexivity. Qed.

(** A phone that is an object with an own [toString] makes the template
    literal throw. *)
Example hashPhone_throws_on_opaque_phone :
  hashPhone (VObj [("toString", VNum 1)]) (VStr "pepper") = Throw TypeError.
Proof. reflexivity. Qed.

(** What the hasher does, case by case. *)
Lemma hashPhone_cases (phone salt : value) :
  hashPhone phone salt
  = if negb (truthy phone) then Ok VNull
    else
      match to_string (js_or salt (VStr EmptyString)), to_string phone with
      | Ok ts, Ok tp =>
          Ok (VStr (hex (sha256 (utf8 (String.append ts (String.append ":" tp))))))
      | _, _ => Throw TypeError
      end.
Proof.
  unfold hashPhone. destruct (negb (truthy phone)); [reflexivity|].
  destruct (to_string (js_or salt (VStr EmptyString))) as [ts|e] eqn:Es; simpl.
  - destruct (to_string phone) as [tp|e] eqn:Ep; simpl; [reflexivity|].
    now rewrite (to_string_throws _ _ Ep).
  - now rewrite (to_string_throws _ _ Es).
Qed.

Lemma hashPhone_env_salt (phone : value) (salt : option string) :
  hashPhone phone (of_env salt)
  = if negb (truthy phone) then Ok VNull
    else
      match to_string phone with
      | Ok tp =>
          Ok (VStr (hex (sha256 (utf8 (String.append (env_or salt EmptyString)
                                         (String.append ":" tp))))))
      | Throw _ => Throw TypeError
      end.
Proof.
  rewrite hashPhone_cases. destruct (negb (truthy phone)); [reflexivity|].
  destruct salt as [[|c s]|]; simpl; destruct (to_string phone); reflexivity.
Qed.

(* ------------------------------------------------------------------------- *)
(** * The batch handed to the storage layer *)

Lemma to_op_cases (salt : option string) (m : inbound) :
  to_op salt m
  = match hashPhone (sender_phone m) (of_env salt) with
    | Ok hash => Ok (op_with hash m)
    | Throw e => Throw e
    end.
Proof. unfold to_op. destruct (hashPhone _ _); reflexivity. Qed.

Lemma to_op_ok (salt : option string) (m : inbound) (o : op) :
  to_op salt m = Ok o ->
  filter_id o = wa_message_id m
  /\ keyed o
  /\ d_direction (setOnInsert o) = "inbound"
  /\ d_raw_message (setOnInsert o) = raw_message m
  /\ hashPhone (sender_phone m) (of_env salt) = Ok (d_sender_phone_hash (setOnInsert o)).
Proof.
  rewrite to_op_cases. destruct (hashPhone _ _) as [hash|e]; [|discriminate].
  intros [= <-]. repeat split.
Qed.

Section MapThrowing.
Context {A B : Type} (f : A -> result B).

Lemma map_throwing_ok (xs : list A) (ys : list B) :
  map_throwing f xs = Ok ys <-> Forall2 (fun x y => f x = Ok y) xs ys.
Proof.
  revert ys. induction xs as [|x xs IH]; intros ys; simpl.
  - split; [intros [= <-]; constructor | intros H; now inversion H].
  - destruct (f x) as [y|e] eqn:Ex; simpl.
    + destruct (map_throwing f xs) as [ys'|e] eqn:Exs; simpl.
      * split.
        -- intros [= <-]. constructor; [exact Ex | now apply IH].
        -- intros H. inversion H as [|? y0 ? ys0 Hy Hys]; subst.
           apply IH in Hys. congruence.
      * split; [discriminate|]. intros H. inversion H as [|? y0 ? ys0 Hy Hys]; subst.
        apply IH in Hys. discriminate.
    + split; [discriminate|]. intros H. inversion H; subst. congruence.
Qed.

Lemma map_throwing_throw (xs : list A) (e : exn) :
  map_throwing f xs = Throw e -> exists x, In x xs /\ f x = Throw e.
Proof.
  induction xs as [|x xs IH]; simpl; [discriminate|].
  destruct (f x) as [y|e'] eqn:Ex; simpl.
  - destruct (map_throwing f xs) as [ys|e'] eqn:Exs; simpl; [discriminate|].
    intros [= <-]. destruct (IH eq_refl) as (x' & Hin & Hx'). eauto.
  - intros [= <-]. eauto.
Qed.

Lemma map_throwing_length (xs : list A) (ys : list B) :
  map_throwing f xs = Ok ys -> List.length ys = List.length xs.
Proof.
  intros H. apply map_throwing_ok in H. symmetry. now apply Forall2_length in H.
Qed.

Lemma map_throwing_in (xs : list A) (ys : list B) (x : A) :
  map_throwing f xs = Ok ys -> In x xs -> exists y, f x = Ok y /\ In y ys.
Proof.
  intros H. apply map_throwing_ok in H. induction H as [|x0 y0 xs ys Hxy _ IH];
    intros Hin; [contradiction|].
  destruct Hin as [->|Hin].
  - exists y0. split; [exact Hxy | now left].
  - destruct (IH Hin) as (y & Hy & Hyin). exists y. split; [exact Hy | now right].
Qed.

Lemma map_throwing_from (xs : list A) (ys : list B) (y : B) :
  map_throwing f xs = Ok ys -> In y ys -> exists x, In x xs /\ f x = Ok y.
Proof.
  intros H. apply map_throwing_ok in H. induction H as [|x0 y0 xs ys Hxy _ IH];
    intros Hin; [contradiction|].
  destruct Hin as [->|Hin].
  - exists x0. split; [now left | exact Hxy].
  - destruct (IH Hin) as (x & Hx & Hxy'). exists x. split; [now right | exact Hxy'].
Qed.
End MapThrowing.

Lemma build_ops_have_id (salt : option string) (msgs : list inbound) (ops : list op) (o : op) :
  build_ops salt msgs = Ok ops -> In o ops ->
  truthy (filter_id o) = true /\ keyed o /\ d_direction (setOnInsert o) = "inbound".
Proof.
  unfold build_ops. intros Hops Ho.
  destruct (map_throwing_from _ _ _ _ Hops Ho) as (m & Hm & Hmo).
  apply filter_In in Hm as [_ Hid].
  destruct (to_op_ok _ _ _ Hmo) as (Hf & Hk & Hd & _).
  rewrite Hf. auto.
Qed.

Lemma build_ops_keep (salt : option string) (msgs : list inbound) (ops : list op)
      (m : inbound) :
  build_ops salt msgs = Ok ops -> In m msgs -> truthy (wa_message_id m) = true ->
  exists o, to_op salt m = Ok o /\ In o ops.
Proof.
  unfold build_ops. intros Hops Hin Hid.
  apply (map_throwing_in _ _ _ m Hops). apply filter_In. auto.
Qed.

Lemma build_ops_drop (salt : option string) (pre post : list inbound) (m : inbound) :
  truthy (wa_message_id m) = false ->
  build_ops salt (pre ++ m :: post) = build_ops salt (pre ++ post).
Proof.
  intros Hid. unfold build_ops. rewrite !filter_app. simpl. now rewrite Hid.
Qed.

Lemma build_ops_throw (salt : option string) (msgs : list inbound) (e : exn) :
  build_ops salt msgs = Throw e ->
  e = TypeError
  /\ exists m, In m msgs /\ truthy (wa_message_id m) = true /\ to_op salt m = Throw e.
Proof.
  unfold build_ops. intros H.
  destruct (map_throwing_throw _ _ _ H) as (m & Hm & Hthrow).
  apply filter_In in Hm as [Hin Hid]. split; [|eauto].
  rewrite to_op_cases, hashPhone_env_salt in Hthrow.
  destruct (negb (truthy (sender_phone m))); [discriminate|].
  destruct (to_string (sender_phone m)); [discriminate | now injection Hthrow as <-].
Qed.

Lemma build_ops_length (salt : option string) (msgs : list inbound) (ops : list op) :
  build_ops salt msgs = Ok ops ->
  List.length ops = List.length (filter (fun m => truthy (wa_message_id m)) msgs).
Proof. unfold build_ops. apply map_throwing_length. Qed.

(** The six ways a POST can go after its signature was checked, and the
    rejection. *)
Lemma post_handler_cases (cfg : config) (bulkWrite : list op -> result unit) (now : Z)
      (req : request) (out : outcome) :
  post_handler cfg bulkWrite now req = Ok out ->
  (verifyMetaSignature req (metaAppSecret cfg) = Ok false
   /\ out = {| reply := sendStatus 403; written := []; logged := [] |})
  \/ (verifyMetaSignature req (metaAppSecret cfg) = Ok true
      /\ ((exists e, extractInboundMessages now (body req) = Throw e
                     /\ out = {| reply := sendStatus 200; written := [];
                                 logged := [WebhookError e] |})
          \/ (extractInboundMessages now (body req) = Ok []
              /\ out = {| reply := sendStatus 200; written := [];
                          logged := [InfoNoMessages] |})
          \/ (exists msgs e, extractInboundMessages now (body req) = Ok msgs
                /\ msgs <> [] /\ build_ops (phoneHashSalt cfg) msgs = Throw e
                /\ out = {| reply := sendStatus 200; written := [];
                            logged := [WebhookError e] |})
          \/ (exists msgs, extractInboundMessages now (body req) = Ok msgs
                /\ msgs <> [] /\ build_ops (phoneHashSalt cfg) msgs = Ok []
                /\ out = {| reply := sendStatus 200; written := [];
                            logged := [InfoSaved 0] |})
          \/ (exists msgs ops, extractInboundMessages now (body req) = Ok msgs
                /\ msgs <> [] /\ build_ops (phoneHashSalt cfg) msgs = Ok ops /\ ops <> []
                /\ ((exists u, bulkWrite ops = Ok u
                       /\ out = {| reply := sendStatus 200; written := [ops];
                                   logged := [InfoSaved (List.length ops)] |})
                    \/ (exists e, bulkWrite ops = Throw e
                          /\ out = {| reply := sendStatus 200; written := [ops];
                                      logged := [WebhookError e] |}))))).
Proof.
  intros H. unfold post_handler in H.
  destruct (verifyMetaSignature req (metaAppSecret cfg)) as [[|]|e]; simpl in H;
    [| left; split; [reflexivity | now injection H as <-] | discriminate].
  right. split; [reflexivity|].
  destruct (extractInboundMessages now (body req)) as [msgs|e].
  - destruct msgs as [|m0 msgs];
      [right; left; simpl in H; split; [reflexivity | now injection H as <-]|].
    right. right. cbv beta iota delta [List.length Nat.eqb] in H.
    fold (@List.length inbound) in H.
    destruct (build_ops (phoneHashSalt cfg) (m0 :: msgs)) as [[|o rest]|e] eqn:E.
    + right. left. exists (m0 :: msgs). simpl in H.
      split; [reflexivity|]. split; [discriminate|]. split; [exact E|].
      now injection H as <-.
    + right. right. exists (m0 :: msgs), (o :: rest). simpl in H.
      split; [reflexivity|]. split; [discriminate|]. split; [exact E|].
      split; [discriminate|].
      destruct (bulkWrite (o :: rest)) as [u|e].
      * left. exists u. split; [reflexivity | now injection H as <-].
      * right. exists e. split; [reflexivity | now injection H as <-].
    + left. exists (m0 :: msgs), e.
      split; [reflexivity|]. split; [discriminate|]. split; [exact E|].
      now injection H as <-.
  - left. exists e. split; [reflexivity | now injection H as <-].
Qed.

(** What a POST hands to [Message.bulkWrite]: nothing, or the one batch
    built from the extracted records. *)
Lemma post_handler_written (cfg : config) (bulkWrite : list op -> result unit) (now : Z)
      (req : request) (out : outcome) :
  post_handler cfg bulkWrite now req = Ok out ->
  written out = []
  \/ exists msgs ops, verifyMetaSignature req (metaAppSecret cfg) = Ok true
                      /\ extractInboundMessages now (body req) = Ok msgs
                      /\ build_ops (phoneHashSalt cfg) msgs = Ok ops
                      /\ ops <> []
                      /\ written out = [ops].
Proof.
  intros Hout.
  destruct (post_handler_cases _ _ _ _ _ Hout)
    as [[_ ->]|[Hv [(e & _ & ->)|[[_ ->]|[(msgs & e & _ & _ & _ & ->)
        |[(msgs & _ & _ & _ & ->)
         |(msgs & ops & He & _ & Hops & Hne & [(u & _ & ->)|(e & _ & ->)])]]]]]];
    simpl; auto; right; exists msgs, ops; auto.
Qed.

(** C7. Every operation handed to the storage layer carries a message id:
    an extracted record without one is filtered out before the batch is
    built, and its removal changes nothing for its siblings.  The batch,
    or the error that prevents it, is the one that would have been
    obtained without the dropped record; when the batch is built, every
    record that has an id has its operation in the batch written; and
    when it is not built, the error comes from a record that has an id. *)
Theorem records_without_id_are_dropped (cfg : config) (bulkWrite : list op -> result unit)
        (now : Z) (req : request) (out : outcome) :
  post_handler cfg bulkWrite now req = Ok out ->
  (forall batch o, In batch (written out) -> In o batch -> truthy (filter_id o) = true)
  /\ (forall msgs ops m,
        verifyMetaSignature req (metaAppSecret cfg) = Ok true ->
        extractInboundMessages now (body req) = Ok msgs ->
        build_ops (phoneHashSalt cfg) msgs = Ok ops ->
        In m msgs -> truthy (wa_message_id m) = true ->
        written out = [ops]
        /\ exists o, to_op (phoneHashSalt cfg) m = Ok o /\ In o ops)
  /\ (forall pre m post,
        truthy (wa_message_id m) = false ->
        build_ops (phoneHashSalt cfg) (pre ++ m :: post)
        = build_ops (phoneHashSalt cfg) (pre ++ post))
  /\ (forall msgs e,
        build_ops (phoneHashSalt cfg) msgs = Throw e ->
        exists m, In m msgs /\ truthy (wa_message_id m) = true
                  /\ to_op (phoneHashSalt cfg) m = Throw e).
Proof.
  intros Hout. split; [|split; [|split]].
  - intros batch o Hb Ho.
    destruct (post_handler_written _ _ _ _ _ Hout) as [E|(msgs & ops & _ & _ & Hops & _ & E)];
      rewrite E in Hb; [contradiction|].
    destruct Hb as [<-|[]]. now apply (build_ops_have_id _ _ _ _ Hops) in Ho.
  - intros msgs ops m Hv Hex Hops Hin Hid.
    destruct (build_ops_keep _ _ _ _ Hops Hin Hid) as (o & Ho & Hoin).
    split; [|eauto].
    destruct (post_handler_cases _ _ _ _ _ Hout)
      as [[Hv' _]|[_ [(e & He & _)|[[He _]|[(msgs' & e & He & _ & Hops' & _)
          |[(msgs' & He & _ & Hops' & _)
           |(msgs' & ops' & He & _ & Hops' & _ & [(u & _ & ->)|(e & _ & ->)])]]]]]];
      try congruence.
    + assert (msgs = []) by congruence. subst. contradiction.
    + assert (msgs' = msgs) by congruence. subst.
      assert (ops = []) by congruence. subst. contradiction.
    + assert (msgs' = msgs) by congruence. subst.
      assert (ops' = ops) by congruence. subst. reflexivity.
    + assert (msgs' = msgs) by congruence. subst.
      assert (ops' = ops) by congruence. subst. reflexivity.
  - intros pre m post. apply build_ops_drop.
  - intros msgs e He. now apply build_ops_throw in He.
Qed.

Lemma records_without_id_are_dropped_witness :
  exists out,
    post_handler open_config resolving 0 (delivery partial_envelope) = Ok out
    /\ map (map filter_id) (written out) = [[VStr "m1"; VStr "m2"]]
    /\ forall batch o, In batch (written out) -> In o batch -> truthy (filter_id o) = true.
Proof.
  eexists. split; [vm_compute; reflexivity|]. split; [reflexivity|].
  exact (proj1 (records_without_id_are_dropped open_config resolving 0
                  (delivery partial_envelope) _ eq_refl)).
Defined.

(** A sender that cannot be printed: the batch is not built, nothing is
    written, and the error is logged. *)
Example post_handler_on_opaque_sender :
  post_handler open_config resolving 0 (delivery opaque_sender_envelope)
  = Ok {| reply := sendStatus 200; written := []; logged := [WebhookError TypeError] |}.
Proof. vm_compute. reflexivity. Qed.

(* ------------------------------------------------------------------------- *)
(** * Idempotent persistence *)

Lemma value_eqb_refl (v : value) : value_eqb v v = true.
Proof.
  induction v using value_nested_ind; simpl; auto.
  - apply Bool.eqb_reflx.
  - apply Z.eqb_refl.
  - apply String.eqb_refl.
  - induction H as [|x xs Hx _ IH]; auto. now rewrite Hx, IH.
  - induction H as [|[k x] fs Hx _ IH]; auto. simpl in Hx.
    now rewrite String.eqb_refl, Hx, IH.
Qed.

Lemma value_eqb_eq (a b : value) : value_eqb a b = true <-> a = b.
Proof.
  split; [|intros ->; apply value_eqb_refl].
  revert b. induction a using value_nested_ind; intros [] E; simpl in E;
    try discriminate; auto.
  - f_equal. now apply Bool.eqb_prop.
  - f_equal. now apply Z.eqb_eq.
  - f_equal. now apply String.eqb_eq.
  - f_equal. revert xs0 E. induction H as [|x xs Hx _ IH]; intros [|y ys] E;
      try discriminate; auto.
    apply andb_prop in E as [E1 E2]. f_equal; auto.
  - f_equal. revert fields0 E.
    induction H as [|[k x] fs Hx _ IH]; intros [|[k' y] gs] E; try discriminate; auto.
    apply andb_prop in E as [E12 E3]. apply andb_prop in E12 as [E1 E2].
    apply String.eqb_eq in E1. simpl in Hx. apply Hx in E2. subst. f_equal. auto.
Qed.

Lemma matches_iff (id : value) (s : stored) :
  matches id s = true <-> d_wa_message_id (document s) = id.
Proof. unfold matches. apply value_eqb_eq. Qed.

Lemma existsb_matches (id : value) (c : collection) :
  existsb (matches id) c = true <-> In id (stored_ids c).
Proof.
  unfold stored_ids. rewrite existsb_exists, in_map_iff.
  split; intros (s & H1 & H2).
  - exists s. split; auto. now apply matches_iff.
  - exists s. split; auto. now apply matches_iff.
Qed.

Lemma lookup_none_iff (id : value) (c : collection) :
  lookup id c = None <-> ~ In id (stored_ids c).
Proof.
  rewrite <- existsb_matches. unfold lookup.
  induction c as [|s c IH]; simpl.
  - split; [discriminate | reflexivity].
  - destruct (matches id s); simpl.
    + split; [discriminate | intros H; now elim H].
    + exact IH.
Qed.

Lemma lookup_some (id : value) (c : collection) (s : stored) :
  lookup id c = Some s -> In s c /\ d_wa_message_id (document s) = id.
Proof.
  unfold lookup. intros H. apply find_some in H as [Hin Hm].
  split; auto. now apply matches_iff.
Qed.

Lemma lookup_app_some (id : value) (c extra : collection) (s : stored) :
  lookup id c = Some s -> lookup id (c ++ extra) = Some s.
Proof.
  unfold lookup. induction c as [|x c IH]; simpl; [discriminate|].
  destruct (matches id x); auto.
Qed.

Lemma lookup_app_none (id : value) (c extra : collection) :
  lookup id c = None -> lookup id (c ++ extra) = lookup id extra.
Proof.
  unfold lookup. induction c as [|x c IH]; simpl; auto.
  destruct (matches id x); [discriminate | auto].
Qed.

(** Refreshing [updatedAt] changes no id, no document and no creation date. *)
Lemma touch_core (id : value) (t : Z) (c : collection) :
  map core (touch id t c) = map core c.
Proof.
  induction c as [|s c IH]; simpl; auto.
  destruct (matches id s); simpl; [reflexivity | now rewrite IH].
Qed.

Lemma core_ids (c c' : collection) : map core c = map core c' -> stored_ids c = stored_ids c'.
Proof.
  intros H. unfold stored_ids.
  assert (E : forall l, map (fun s => d_wa_message_id (document s)) l
                        = map (fun p => d_wa_message_id (fst p)) (map core l))
    by (intros l; rewrite map_map; reflexivity).
  now rewrite !E, H.
Qed.

Lemma touch_ids (id : value) (t : Z) (c : collection) :
  stored_ids (touch id t c) = stored_ids c.
Proof. apply core_ids, touch_core. Qed.

Lemma touch_lookup_same (id : value) (t : Z) (c : collection) (s : stored) :
  lookup id c = Some s ->
  lookup id (touch id t c)
  = Some {| document := document s; createdAt := createdAt s; updatedAt := t |}.
Proof.
  unfold lookup. induction c as [|x c IH]; simpl; [discriminate|].
  destruct (matches id x) eqn:E; simpl.
  - intros [= <-]. unfold matches in *. simpl. now rewrite E.
  - rewrite E. exact IH.
Qed.

Lemma touch_lookup_other (id id' : value) (t : Z) (c : collection) :
  id' <> id -> lookup id' (touch id t c) = lookup id' c.
Proof.
  intros Hne. unfold lookup. induction c as [|x c IH]; simpl; auto.
  destruct (matches id x) eqn:E; simpl.
  - apply matches_iff in E.
    assert (N : matches id' x = false).
    { destruct (matches id' x) eqn:E'; auto. apply matches_iff in E'. congruence. }
    unfold matches in *. simpl. now rewrite N.
  - destruct (matches id' x); auto.
Qed.

(** One atomic operation: when the id is stored, only [updatedAt] of that
    record changes; otherwise the operation's own record is inserted at
    the end, with both dates. *)
Lemma upsert_cases (t : Z) (o : op) (c : collection) :
  (In (filter_id o) (stored_ids c) /\ upsert t o c = touch (filter_id o) t c)
  \/ (~ In (filter_id o) (stored_ids c)
      /\ upsert t o c
         = c ++ [{| document := setOnInsert o; createdAt := t; updatedAt := t |}]).
Proof.
  unfold upsert. destruct (existsb (matches (filter_id o)) c) eqn:E.
  - left. split; auto. now apply existsb_matches.
  - right. split; auto. rewrite <- existsb_matches. congruence.
Qed.

Lemma upsert_keeps (t : Z) (o : op) (c : collection) (id : value) (s : stored) :
  lookup id c = Some s ->
  exists s', lookup id (upsert t o c) = Some s' /\ core s' = core s.
Proof.
  intros H. destruct (upsert_cases t o c) as [[_ ->]|[_ ->]].
  - destruct (value_eqb id (filter_id o)) eqn:E.
    + apply value_eqb_eq in E. subst id. rewrite (touch_lookup_same _ t _ _ H). eauto.
    + rewrite touch_lookup_other; [eauto|]. intros ->. now rewrite value_eqb_refl in E.
  - exists s. split; [now apply lookup_app_some | reflexivity].
Qed.

Lemma upsert_unique (t : Z) (o : op) (c : collection) :
  keyed o -> NoDup (stored_ids c) -> NoDup (stored_ids (upsert t o c)).
Proof.
  intros Hk Hc. destruct (upsert_cases t o c) as [[_ ->]|[Hnew ->]].
  - now rewrite touch_ids.
  - unfold stored_ids in *. rewrite map_app. simpl.
    apply Permutation_NoDup
      with (l := d_wa_message_id (setOnInsert o) :: map (fun s => d_wa_message_id (document s)) c).
    + apply Permutation_cons_append.
    + constructor; auto. now rewrite Hk.
Qed.

Lemma upsert_first_writer (t : Z) (o : op) (c : collection) :
  keyed o -> lookup (filter_id o) c = None ->
  lookup (filter_id o) (upsert t o c)
  = Some {| document := setOnInsert o; createdAt := t; updatedAt := t |}.
Proof.
  intros Hk Hnone. pose proof Hnone as Hn. apply lookup_none_iff in Hn.
  destruct (upsert_cases t o c) as [[Hin _]|[_ ->]]; [contradiction|].
  rewrite lookup_app_none by exact Hnone.
  unfold lookup, matches. simpl. now rewrite Hk, value_eqb_refl.
Qed.

Lemma upsert_present (t : Z) (o : op) (c : collection) (s : stored) :
  lookup (filter_id o) c = Some s ->
  upsert t o c = touch (filter_id o) t c.
Proof.
  intros H. destruct (upsert_cases t o c) as [[_ E]|[Hnew _]]; auto.
  apply lookup_none_iff in Hnew. congruence.
Qed.

Lemma run_app (s1 s2 : list (Z * op)) (c : collection) :
  run (s1 ++ s2) c = run s2 (run s1 c).
Proof. unfold run. apply fold_left_app. Qed.

Lemma run_keeps (schedule : list (Z * op)) (c : collection) (id : value) (s : stored) :
  lookup id c = Some s ->
  exists s', lookup id (run schedule c) = Some s' /\ core s' = core s.
Proof.
  revert c s. induction schedule as [|[t o] sch IH]; intros c s H; simpl; eauto.
  destruct (upsert_keeps t o c id s H) as (s1 & H1 & E1).
  destruct (IH _ _ H1) as (s2 & H2 & E2). exists s2. split; congruence.
Qed.

Lemma run_unique (schedule : list (Z * op)) (c : collection) :
  Forall keyed (map snd schedule) -> NoDup (stored_ids c) ->
  NoDup (stored_ids (run schedule c)).
Proof.
  revert c. induction schedule as [|[t o] sch IH]; intros c Hk Hc; simpl; auto.
  inversion Hk as [|? ? Ho Hrest]; subst. apply IH; auto. now apply upsert_unique.
Qed.

Lemma build_ops_keyed (salt : option string) (msgs : list inbound) (ops : list op) :
  build_ops salt msgs = Ok ops -> Forall keyed ops.
Proof.
  intros H. apply Forall_forall. intros o Ho.
  now destruct (build_ops_have_id _ _ _ _ H Ho) as (_ & Hk & _).
Qed.

Lemma deliveries_keyed (salt : option string) (deliveries : list (list inbound))
      (batches : list (list op)) :
  Forall2 (fun msgs ops => build_ops salt msgs = Ok ops) deliveries batches ->
  Forall keyed (List.concat batches).
Proof.
  induction 1 as [|msgs ops ds bs H _ IH]; simpl; [constructor|].
  apply Forall_app. split; [now apply build_ops_keyed in H | exact IH].
Qed.

(** C1, as the code has it. Whatever deliveries are persisted and in
    whatever order the storage layer executes their operations (one call
    after the other, or the operations of overlapping calls interleaved),
    the collection holds at most one record per message id; the document
    and the creation date of a stored record never change; the record
    stored for an id has the document of the first operation for that id
    that was executed; and a later operation for the same id changes
    nothing in the collection but the [updatedAt] of that record, which
    the schema's [timestamps] option makes it refresh. *)
Theorem persistence_is_insert_only (salt : option string) (deliveries : list (list inbound))
        (batches : list (list op)) (schedule : list (Z * op)) (c : collection) :
  Forall2 (fun msgs ops => build_ops salt msgs = Ok ops) deliveries batches ->
  Permutation (map snd schedule) (List.concat batches) ->
  NoDup (stored_ids c) ->
  NoDup (stored_ids (run schedule c))
  /\ (forall id s, lookup id c = Some s ->
        exists s', lookup id (run schedule c) = Some s'
                   /\ document s' = document s /\ createdAt s' = createdAt s)
  /\ (forall before t o after,
        schedule = before ++ (t, o) :: after ->
        lookup (filter_id o) (run before c) = None ->
        exists s', lookup (filter_id o) (run schedule c) = Some s'
                   /\ document s' = setOnInsert o /\ createdAt s' = t)
  /\ (forall before t o after s,
        schedule = before ++ (t, o) :: after ->
        lookup (filter_id o) (run before c) = Some s ->
        lookup (filter_id o) (run (before ++ [(t, o)]) c)
        = Some {| document := document s; createdAt := createdAt s; updatedAt := t |}
        /\ map core (run (before ++ [(t, o)]) c) = map core (run before c)).
Proof.
  intros Hbuilt Hperm Hc.
  assert (Hk : Forall keyed (map snd schedule)).
  { apply (Permutation_Forall (Permutation_sym Hperm)), (deliveries_keyed _ _ _ Hbuilt). }
  split; [|split; [|split]].
  - now apply run_unique.
  - intros id s Hs. destruct (run_keeps schedule c id s Hs) as (s' & Hs' & E).
    exists s'. injection E as E1 E2. auto.
  - intros before t o after -> Hnone.
    assert (Ho : keyed o).
    { rewrite Forall_forall in Hk. apply Hk. rewrite map_app. apply in_or_app.
      right. now left. }
    rewrite run_app. simpl.
    destruct (run_keeps after _ _ _ (upsert_first_writer t o _ Ho Hnone)) as (s' & Hs' & E).
    exists s'. injection E as E1 E2. auto.
  - intros before t o after s -> Hsome. rewrite run_app. simpl.
    rewrite (upsert_present t o _ s Hsome). split.
    + now apply touch_lookup_same.
    + apply touch_core.
Qed.

Lemma first_batch_built : build_ops (Some "pepper") first_delivery = Ok first_batch.
Proof. vm_compute. reflexivity. Qed.

Lemma second_batch_built : build_ops (Some "pepper") second_delivery = Ok second_batch.
Proof. vm_compute. reflexivity. Qed.

Lemma persistence_is_insert_only_witness :
  Forall2 (fun msgs ops => build_ops (Some "pepper") msgs = Ok ops)
          [first_delivery; second_delivery] [first_batch; second_batch]
  /\ Permutation (map snd overlapping_schedule) (List.concat [first_batch; second_batch])
  /\ NoDup (stored_ids [])
  /\ NoDup (stored_ids (run overlapping_schedule []))
  /\ exists s', lookup (VStr "m2") (run overlapping_schedule []) = Some s'
                /\ d_ts (document s') = DateNow 2000 /\ createdAt s' = 2001.
Proof.
  assert (Hbuilt : Forall2 (fun msgs ops => build_ops (Some "pepper") msgs = Ok ops)
                           [first_delivery; second_delivery] [first_batch; second_batch]).
  { constructor; [exact first_batch_built|].
    constructor; [exact second_batch_built | constructor]. }
  assert (Hperm : Permutation (map snd overlapping_schedule)
                              (List.concat [first_batch; second_batch])).
  { apply perm_skip. apply Permutation_sym.
    apply (Permutation_cons_app [_; _] []). reflexivity. }
  assert (Hempty : NoDup (stored_ids [])) by constructor.
  pose proof (persistence_is_insert_only (Some "pepper") [first_delivery; second_delivery]
                [first_batch; second_batch] overlapping_schedule [] Hbuilt Hperm Hempty)
    as (Hunique & _ & Hfirst & _).
  split; [exact Hbuilt|]. split; [exact Hperm|]. split; [exact Hempty|].
  split; [exact Hunique|].
  destruct (Hfirst (firstn 2 overlapping_schedule) 2001
              (op_with pepper_hash (record_of 2000 (VStr "CH1", untimed_message "m2" "there")))
              (skipn 3 overlapping_schedule) eq_refl eq_refl) as (s' & Hs' & Hd & Hc).
  exists s'. split; [exact Hs'|]. split; [now rewrite Hd | exact Hc].
Defined.

(** C1 as stated fails: delivering again a record that is stored changes a
    field of the stored record, its [updatedAt]. *)
Lemma redelivery_refreshes_updatedAt :
  build_ops (Some "pepper") [record_of 1000 (VStr "CH1", untimed_message "m1" "hi")]
  = Ok [m1_op]
  /\ lookup (VStr "m1") (run [(1001, m1_op)] [])
     = Some {| document := setOnInsert m1_op; createdAt := 1001; updatedAt := 1001 |}
  /\ lookup (VStr "m1") (run [(1001, m1_op); (2001, m1_op)] [])
     = Some {| document := setOnInsert m1_op; createdAt := 1001; updatedAt := 2001 |}
  /\ lookup (VStr "m1") (run [(1001, m1_op); (2001, m1_op)] [])
     <> lookup (VStr "m1") (run [(1001, m1_op)] []).
Proof.
  split; [vm_compute; reflexivity|]. split; [reflexivity|]. split; [reflexivity|].
  vm_compute. discriminate.
Qed.

(** The record kept is the one of the first execution: the overlap stores
    m1 as read at instant 1000 and m2 as read at instant 2000; the later
    operations only moved [updatedAt]. *)
Example overlap_keeps_first_writers :
  map (fun s => (d_ts (document s), createdAt s, updatedAt s)) (run overlapping_schedule [])
  = [(DateNow 1000, 1001, 2001); (DateNow 2000, 2001, 1001)].
Proof. reflexivity. Qed.

(* ------------------------------------------------------------------------- *)
(** * More on the signature verifier *)

Lemma append_length (s t : string) :
  String.length (String.append s t) = (String.length s + String.length t)%nat.
Proof. induction s as [|c s IH]; simpl; auto. Qed.

Lemma hmac_sha256_length (key msg : list byte) : List.length (hmac_sha256 key msg) = 32%nat.
Proof. unfold hmac_sha256. apply sha256_length. Qed.

Lemma verify_total (req : request) (appSecret : option string) :
  exists b, verifyMetaSignature req appSecret = Ok b.
Proof.
  unfold verifyMetaSignature. destruct appSecret as [[|c secret]|]; eauto.
  destruct (signature_header req) as [[|d sig]|]; eauto.
  apply caught_compare_total.
Qed.

(** X1. With a non-empty secret, a request is accepted exactly when its
    signature header is the expected string; an accepted header is
    therefore ["sha256="] followed by 64 lower-case hex digits, 71
    characters in all. *)
Theorem verify_accepts_exactly_expected (req : request) (secret : string) :
  secret <> EmptyString ->
  (verifyMetaSignature req (Some secret) = Ok true
   <-> signature_header req = Some (expected_signature secret (rawBody req)))
  /\ (verifyMetaSignature req (Some secret) = Ok true ->
      exists sig digits,
        signature_header req = Some sig
        /\ sig = String.append "sha256=" digits
        /\ String.length digits = 64%nat
        /\ all_hex digits = true
        /\ String.length sig = 71%nat).
Proof.
  intros Hsecret. destruct secret as [|c secret]; [contradiction|].
  assert (Hiff : verifyMetaSignature req (Some (String c secret)) = Ok true
                 <-> signature_header req
                     = Some (expected_signature (String c secret) (rawBody req))).
  { destruct (signature_header req) as [[|d sig]|] eqn:Hsig.
    - unfold verifyMetaSignature. rewrite Hsig. split; discriminate.
    - rewrite (verify_with_secret req c secret _ Hsig) by discriminate.
      set (e := expected_signature (String c secret) (rawBody req)).
      destruct (String.eqb_spec (String d sig) e) as [E|E].
      + rewrite E. split; reflexivity.
      + split; [discriminate|]. intros H. elim E. congruence.
    - unfold verifyMetaSignature. rewrite Hsig. split; discriminate. }
  split; [exact Hiff|].
  intros Hok. apply Hiff in Hok.
  eexists. eexists. split; [exact Hok|]. split; [reflexivity|].
  split; [|split].
  - now rewrite hex_length, hmac_sha256_length.
  - apply hex_all_hex.
  - unfold expected_signature. rewrite append_length, hex_length, hmac_sha256_length.
    reflexivity.
Qed.

Lemma verify_accepts_exactly_expected_witness :
  "topsecret" <> EmptyString
  /\ verifyMetaSignature signed_request (Some "topsecret") = Ok true
  /\ verifyMetaSignature near_miss_request (Some "topsecret") <> Ok true.
Proof.
  assert (Hs : "topsecret" <> EmptyString) by discriminate.
  split; [exact Hs|]. split.
  - apply (proj1 (verify_accepts_exactly_expected signed_request "topsecret" Hs)).
    vm_compute. reflexivity.
  - intros H.
    apply (proj1 (verify_accepts_exactly_expected near_miss_request "topsecret" Hs)) in H.
    vm_compute in H. discriminate H.
Defined.

(* ------------------------------------------------------------------------- *)
(** * The POST handler *)

Lemma post_handler_total (cfg : config) (bulkWrite : list op -> result unit) (now : Z)
      (req : request) :
  exists out, post_handler cfg bulkWrite now req = Ok out.
Proof.
  unfold post_handler.
  destruct (verify_total req (metaAppSecret cfg)) as [[|] ->]; simpl; eauto.
  destruct (extractInboundMessages now (body req)) as [msgs|e]; eauto.
  destruct (Nat.eqb (List.length msgs) 0); eauto.
  destruct (build_ops (phoneHashSalt cfg) msgs) as [ops|e]; eauto.
  destruct (Nat.eqb (List.length ops) 0); eauto.
  destruct (bulkWrite ops); eauto.
Qed.

(** After a verified signature the reply is 200, whatever follows. *)
Lemma post_handler_reply (cfg : config) (bulkWrite : list op -> result unit) (now : Z)
      (req : request) (out : outcome) :
  post_handler cfg bulkWrite now req = Ok out ->
  (verifyMetaSignature req (metaAppSecret cfg) = Ok false
   /\ reply out = sendStatus 403 /\ written out = [] /\ logged out = [])
  \/ (verifyMetaSignature req (metaAppSecret cfg) = Ok true
      /\ reply out = sendStatus 200).
Proof.
  intros Hout.
  destruct (post_handler_cases _ _ _ _ _ Hout)
    as [[Hv ->]|[Hv [(e & _ & ->)|[[_ ->]|[(msgs & e & _ & _ & _ & ->)
        |[(msgs & _ & _ & _ & ->)
         |(msgs & ops & _ & _ & _ & _ & [(u & _ & ->)|(e & _ & ->)])]]]]]];
    simpl; auto.
Qed.

(** X2. A POST is always answered, whatever the storage handle does: with
    200 exactly when the signature verifies, with 403 otherwise; a
    rejected request is neither processed nor logged. *)
Theorem post_handler_acknowledges (cfg : config) (bulkWrite : list op -> result unit)
        (now : Z) (req : request) :
  exists out,
    post_handler cfg bulkWrite now req = Ok out
    /\ (status (reply out) = 200 <-> verifyMetaSignature req (metaAppSecret cfg) = Ok true)
    /\ (status (reply out) = 403 <-> verifyMetaSignature req (metaAppSecret cfg) = Ok false)
    /\ (verifyMetaSignature req (metaAppSecret cfg) = Ok false ->
        written out = [] /\ logged out = []).
Proof.
  destruct (post_handler_total cfg bulkWrite now req) as [out Hout].
  exists out. split; [exact Hout|].
  destruct (post_handler_reply _ _ _ _ _ Hout) as [(Hv & -> & Hw & Hl)|(Hv & ->)];
    rewrite Hv; simpl; repeat split; auto; try discriminate; intros H; discriminate H.
Qed.

(** X3. Once the signature has verified, nothing that goes wrong changes
    the reply: when extraction throws, nothing is handed to the storage
    layer and the error is logged; when building the batch throws, the
    same; when the storage layer rejects the batch, that error is logged.
    In all cases the reply stays 200. *)
Theorem post_handler_contains_failures (cfg : config) (bulkWrite : list op -> result unit)
        (now : Z) (req : request) (out : outcome) :
  post_handler cfg bulkWrite now req = Ok out ->
  verifyMetaSignature req (metaAppSecret cfg) = Ok true ->
  reply out = sendStatus 200
  /\ (forall e, extractInboundMessages now (body req) = Throw e ->
                written out = [] /\ logged out = [WebhookError e])
  /\ (shaped (body req) = false ->
      written out = [] /\ logged out = [WebhookError TypeError])
  /\ (forall batch e, In batch (written out) -> bulkWrite batch = Throw e ->
                      logged out = [WebhookError e])
  /\ (forall msgs e, extractInboundMessages now (body req) = Ok msgs ->
                     build_ops (phoneHashSalt cfg) msgs = Throw e ->
                     written out = [] /\ logged out = [WebhookError e]).
Proof.
  intros Hout Hv.
  assert (Hthrow : forall e, extractInboundMessages now (body req) = Throw e ->
                     written out = [] /\ logged out = [WebhookError e]).
  { intros e He.
    destruct (post_handler_cases _ _ _ _ _ Hout)
      as [[Hv' _]|[_ [(e' & He' & ->)|[[He' _]|[(msgs & e' & He' & _)
          |[(msgs & He' & _)|(msgs & ops & He' & _)]]]]]]; try congruence.
    simpl. split; congruence. }
  split; [|split; [|split; [|split]]].
  - destruct (post_handler_reply _ _ _ _ _ Hout) as [(Hv' & _)|(_ & Hr)];
      [congruence | exact Hr].
  - exact Hthrow.
  - intros Hs. apply Hthrow. rewrite extract_spec. now rewrite Hs.
  - intros batch e Hin Hbw.
    destruct (post_handler_cases _ _ _ _ _ Hout)
      as [[_ ->]|[_ [(e' & _ & ->)|[[_ ->]|[(msgs & e' & _ & _ & _ & ->)
          |[(msgs & _ & _ & _ & ->)
           |(msgs & ops & _ & _ & _ & _ & [(u & Hu & ->)|(e' & He' & ->)])]]]]]];
      simpl in Hin; try contradiction; destruct Hin as [<-|[]]; simpl; congruence.
  - intros msgs e He Hb.
    destruct (post_handler_cases _ _ _ _ _ Hout)
      as [[Hv' _]|[_ [(e' & He' & _)|[[He' _]|[(msgs' & e' & He' & _ & Hb' & ->)
          |[(msgs' & He' & _ & Hb' & _)
           |(msgs' & ops & He' & _ & Hb' & _)]]]]]]; try congruence;
      try (assert (msgs = []) by congruence; subst; discriminate Hb);
      assert (msgs' = msgs) by congruence; subst; simpl; split; congruence.
Qed.

Lemma post_handler_contains_failures_witness :
  exists out,
    post_handler open_config resolving 0 (delivery object_changes_envelope) = Ok out
    /\ reply out = sendStatus 200
    /\ written out = [] /\ logged out = [WebhookError TypeError].
Proof.
  eexists. split; [reflexivity|].
  destruct (post_handler_contains_failures open_config resolving 0
              (delivery object_changes_envelope) _ eq_refl eq_refl) as (Hr & _ & Hs & _).
  split; [exact Hr|]. apply Hs. reflexivity.
Defined.

(** X4. A POST calls [bulkWrite] at most once, never with an empty batch,
    and every operation of the batch is an upsert of an inbound record
    filtered by that record's own, truthy, message id. *)
Theorem post_handler_writes_one_batch (cfg : config) (bulkWrite : list op -> result unit)
        (now : Z) (req : request) (out : outcome) :
  post_handler cfg bulkWrite now req = Ok out ->
  (List.length (written out) <= 1)%nat
  /\ (forall batch, In batch (written out) ->
        batch <> []
        /\ forall o, In o batch ->
             keyed o /\ truthy (filter_id o) = true
             /\ d_direction (setOnInsert o) = "inbound").
Proof.
  intros Hout.
  destruct (post_handler_written _ _ _ _ _ Hout)
    as [->|(msgs & ops & _ & _ & Hops & Hne & ->)]; simpl.
  - split; [lia|]. contradiction.
  - split; [lia|]. intros batch [<-|[]]. split; [exact Hne|].
    intros o Ho. destruct (build_ops_have_id _ _ _ _ Hops Ho) as (Hid & Hk & Hd). auto.
Qed.

Lemma post_handler_writes_one_batch_witness :
  exists out,
    post_handler open_config resolving 0 (delivery partial_envelope) = Ok out
    /\ (List.length (written out) <= 1)%nat
    /\ map (@List.length op) (written out) = [2%nat].
Proof.
  eexists. split; [vm_compute; reflexivity|]. split; [|reflexivity].
  exact (proj1 (post_handler_writes_one_batch open_config resolving 0
                  (delivery partial_envelope) _ eq_refl)).
Defined.

(** X5. The two information lines say what happened: "no messages" is
    logged only when extraction returned nothing, and then nothing is
    written; "saved: n" is logged only after every handed batch resolved,
    and n is the number of extracted records that carry an id, which is the
    number of operations written and at most the number of extracted
    records. *)
Theorem post_handler_counts (cfg : config) (bulkWrite : list op -> result unit)
        (now : Z) (req : request) (out : outcome) :
  post_handler cfg bulkWrite now req = Ok out ->
  (In InfoNoMessages (logged out) ->
   extractInboundMessages now (body req) = Ok [] /\ written out = [])
  /\ (forall n, In (InfoSaved n) (logged out) ->
        exists msgs,
          extractInboundMessages now (body req) = Ok msgs /\ msgs <> []
          /\ n = List.length (filter (fun m => truthy (wa_message_id m)) msgs)
          /\ n = List.length (List.concat (written out))
          /\ (n <= List.length msgs)%nat
          /\ (forall batch, In batch (written out) -> exists u, bulkWrite batch = Ok u)).
Proof.
  intros Hout. split.
  - intros Hin.
    destruct (post_handler_cases _ _ _ _ _ Hout)
      as [[_ ->]|[_ [(e' & _ & ->)|[[He ->]|[(msgs & e' & _ & _ & _ & ->)
          |[(msgs & He & Hne & Hops & ->)
           |(msgs & ops & He & Hne & Hops & Hnil & [(u & Hu & ->)|(e' & _ & ->)])]]]]]];
      simpl in *; auto; try contradiction; destruct Hin as [H|[]]; discriminate H.
  - intros n Hin.
    destruct (post_handler_cases _ _ _ _ _ Hout)
      as [[_ ->]|[_ [(e' & _ & ->)|[[He ->]|[(msgs & e' & _ & _ & _ & ->)
          |[(msgs & He & Hne & Hops & ->)
           |(msgs & ops & He & Hne & Hops & Hnil & [(u & Hu & ->)|(e' & _ & ->)])]]]]]];
      simpl in Hin; try contradiction; destruct Hin as [H|[]]; try discriminate H;
      injection H as <-; exists msgs; simpl written;
      pose proof (build_ops_length _ _ _ Hops) as Hlen.
    + simpl in Hlen. rewrite <- Hlen. simpl. repeat split; auto; try lia.
    + simpl List.concat. rewrite app_nil_r.
      split; [exact He|]. split; [exact Hne|]. split; [exact Hlen|].
      split; [reflexivity|]. split.
      * rewrite Hlen. apply filter_length_le.
      * intros batch [<-|[]]. eauto.
Qed.

Lemma post_handler_counts_witness :
  exists out,
    post_handler open_config resolving 0 (delivery partial_envelope) = Ok out
    /\ logged out = [InfoSaved 2]
    /\ exists msgs,
         extractInboundMessages 0 partial_envelope = Ok msgs
         /\ List.length msgs = 3%nat
         /\ 2%nat = List.length (filter (fun m => truthy (wa_message_id m)) msgs).
Proof.
  eexists. split; [vm_compute; reflexivity|]. split; [reflexivity|].
  destruct (proj2 (post_handler_counts open_config resolving 0
                     (delivery partial_envelope) _ eq_refl) 2%nat (or_introl eq_refl))
    as (msgs & He & _ & Hn & _).
  exists msgs. split; [exact He|]. split; [|exact Hn].
  simpl in He. injection He as <-. reflexivity.
Defined.

(* ------------------------------------------------------------------------- *)
(** * More on the privacy hasher *)

Lemma append_assoc (a b c : string) :
  String.append (String.append a b) c = String.append a (String.append b c).
Proof. induction a as [|x a IH]; simpl; congruence. Qed.

Lemma to_string_printable (v : value) :
  printable v = true -> exists s, to_string v = Ok s.
Proof. intros H. pose proof (to_string_cases v) as C. now rewrite H in C. Qed.

Lemma to_string_unprintable (v : value) :
  printable v = false -> to_string v = Throw TypeError.
Proof. intros H. pose proof (to_string_cases v) as C. now rewrite H in C. Qed.

(** X6. Whatever the sender and the salt are (strings, numbers, objects,
    absent), the hasher has three outcomes: null exactly when the sender is
    falsy; a [TypeError] exactly when the sender is truthy and the salt or
    the sender cannot be printed (an object with an own [toString] is
    reached); a string of 64 lower-case hex digits otherwise. *)
Theorem hashPhone_outcomes (phone salt : value) :
  (truthy phone = false /\ hashPhone phone salt = Ok VNull)
  \/ (truthy phone = true
      /\ printable (js_or salt (VStr EmptyString)) && printable phone = false
      /\ hashPhone phone salt = Throw TypeError)
  \/ (truthy phone = true
      /\ printable (js_or salt (VStr EmptyString)) && printable phone = true
      /\ exists digest, hashPhone phone salt = Ok (VStr digest)
                        /\ String.length digest = 64%nat
                        /\ all_hex digest = true).
Proof.
  rewrite hashPhone_cases. destruct (truthy phone) eqn:T; simpl; [right | now left].
  pose proof (to_string_cases (js_or salt (VStr EmptyString))) as Cs.
  pose proof (to_string_cases phone) as Cp.
  destruct (printable (js_or salt (VStr EmptyString))); simpl.
  - destruct Cs as [ts ->]. destruct (printable phone).
    + destruct Cp as [tp ->]. right. repeat split.
      eexists. split; [reflexivity|].
      split; [apply sha256_hex_length | apply hex_all_hex].
    + rewrite Cp. left. auto.
  - rewrite Cs. left. auto.
Qed.

(** X7. The colon does not separate salt and phone unambiguously: moving
    a colon-delimited piece from the front of the phone to the back of the
    salt gives the same hash. *)
Theorem hashPhone_separator_is_ambiguous (a b c : string) :
  c <> EmptyString ->
  hashPhone (VStr (String.append b (String.append ":" c))) (VStr a)
  = hashPhone (VStr c) (VStr (String.append a (String.append ":" b))).
Proof.
  intros Hc. rewrite !hashPhone_cases.
  assert (T1 : truthy (VStr (String.append b (String.append ":" c))) = true)
    by (destruct b; reflexivity).
  rewrite T1, (nonempty_truthy c Hc). simpl negb. cbv iota.
  assert (S1 : js_or (VStr a) (VStr EmptyString) = VStr a)
    by (destruct a; reflexivity).
  assert (S2 : js_or (VStr (String.append a (String.append ":" b))) (VStr EmptyString)
               = VStr (String.append a (String.append ":" b)))
    by (destruct a; reflexivity).
  rewrite S1, S2, !to_string_string. do 4 f_equal.
  now rewrite !append_assoc.
Qed.

Lemma hashPhone_separator_is_ambiguous_witness :
  "77001234567" <> EmptyString
  /\ hashPhone (VStr "x:77001234567") (VStr "pepper")
     = hashPhone (VStr "77001234567") (VStr "pepper:x").
Proof.
  split; [discriminate|].
  apply (hashPhone_separator_is_ambiguous "pepper" "x" "77001234567"). discriminate.
Defined.

(** X8. The raw sender is still stored: for every extracted record with
    a sender, the operation built for it, if one is, carries a 64-digit
    hash in [sender_phone_hash] and the unhashed sender in the [from]
    field of [raw_message].  An operation is built exactly when the sender
    can be printed; otherwise [hashPhone] throws a [TypeError] and no
    document is built. *)
Theorem raw_sender_is_stored (now : Z) (webhookBody : value) (rs : list inbound)
        (r : inbound) (salt : option string) :
  extractInboundMessages now webhookBody = Ok rs -> In r rs ->
  truthy (sender_phone r) = true ->
  (forall o, to_op salt r = Ok o ->
     get (d_raw_message (setOnInsert o)) "from" = sender_phone r
     /\ exists digest, d_sender_phone_hash (setOnInsert o) = VStr digest
                       /\ String.length digest = 64%nat
                       /\ all_hex digest = true)
  /\ (printable (sender_phone r) = true -> exists o, to_op salt r = Ok o)
  /\ (printable (sender_phone r) = false -> to_op salt r = Throw TypeError).
Proof.
  intros Hex Hin Hs.
  assert (Hop : to_op salt r
                = match to_string (sender_phone r) with
                  | Ok tp =>
                      Ok (op_with
                            (VStr (hex (sha256 (utf8 (String.append (env_or salt EmptyString)
                                                        (String.append ":" tp)))))) r)
                  | Throw _ => Throw TypeError
                  end).
  { rewrite to_op_cases, hashPhone_env_salt, Hs. simpl.
    destruct (to_string (sender_phone r)); reflexivity. }
  split; [|split].
  - intros o Ho. rewrite Hop in Ho.
    destruct (to_string (sender_phone r)) as [tp|e]; [|discriminate].
    injection Ho as <-. simpl. split.
    + destruct (extracted_record now webhookBody rs r Hex Hin) as [ch Hr].
      rewrite Hr in Hs |- *. simpl in *. unfold js_or in *.
      destruct (truthy (get (raw_message r) "from")); [reflexivity | discriminate].
    + eexists. split; [reflexivity|].
      split; [apply sha256_hex_length | apply hex_all_hex].
  - intros Hp. destruct (to_string_printable _ Hp) as [tp Htp].
    rewrite Hop, Htp. eauto.
  - intros Hp. now rewrite Hop, (to_string_unprintable _ Hp).
Qed.

Lemma raw_sender_is_stored_witness :
  exists r1 r2 o,
    extractInboundMessages 0 scenario_envelope = Ok [r1; r2]
    /\ truthy (sender_phone r1) = true
    /\ to_op (Some "pepper") r1 = Ok o
    /\ get (d_raw_message (setOnInsert o)) "from" = VStr "77001234567".
Proof.
  exists (record_of 0 (VStr "CH1", text_message "m1" "hi")),
         (record_of 0 (VStr "CH1", interactive_message "m2" "button_reply")),
         (op_with pepper_hash (record_of 0 (VStr "CH1", text_message "m1" "hi"))).
  split; [reflexivity|]. split; [reflexivity|].
  assert (Ho : to_op (Some "pepper") (record_of 0 (VStr "CH1", text_message "m1" "hi"))
               = Ok (op_with pepper_hash (record_of 0 (VStr "CH1", text_message "m1" "hi"))))
    by (vm_compute; reflexivity).
  split; [exact Ho|].
  exact (proj1 (proj1 (raw_sender_is_stored 0 scenario_envelope _ _ (Some "pepper")
                         eq_refl (or_introl eq_refl) eq_refl) _ Ho)).
Defined.

(** A record whose sender is an object with an own [toString] gets no
    document. *)
Example opaque_sender_gets_no_document :
  to_op (Some "pepper") (record_of 0 (VStr "CH1", opaque_sender_message)) = Throw TypeError.
Proof. reflexivity. Qed.

(* ------------------------------------------------------------------------- *)
(** * More on the payload extractor *)

Lemma js_or_null (v : value) : js_or v VNull = VNull \/ truthy (js_or v VNull) = true.
Proof. unfold js_or. destruct (truthy v) eqn:T; auto. Qed.

Lemma extracted_pair (now : Z) (webhookBody : value) (rs : list inbound) (r : inbound) :
  extractInboundMessages now webhookBody = Ok rs -> In r rs ->
  exists ch m, In (ch, m) (messages_of webhookBody) /\ r = record_of now (ch, m).
Proof.
  rewrite extract_spec. destruct (shaped webhookBody); [|discriminate].
  intros [= <-] Hin. apply in_map_iff in Hin as ([ch m] & <- & Hp). eauto.
Qed.

(** X9. No record is invented and none is re-labelled: every extracted
    record is the record of a message found under the messages level of
    some change of some entry of the envelope, and its channel id is the
    [phone_number_id] of that change's metadata, or null when that is
    absent or falsy. *)
Theorem extracted_records_come_from_envelope (now : Z) (webhookBody : value)
        (rs : list inbound) (r : inbound) :
  extractInboundMessages now webhookBody = Ok rs -> In r rs ->
  exists entry change,
    In entry (visited (get webhookBody "entry"))
    /\ In change (visited (get entry "changes"))
    /\ In (raw_message r) (visited (change_messages change))
    /\ phone_number_id r = change_channel change
    /\ (phone_number_id r = VNull \/ truthy (phone_number_id r) = true)
    /\ wa_message_id r = get (raw_message r) "id".
Proof.
  intros Hex Hin. destruct (extracted_pair _ _ _ _ Hex Hin) as (ch & m & Hp & ->).
  unfold messages_of in Hp. apply in_flat_map in Hp as (entry & Hentry & Hp).
  unfold messages_of_entry in Hp. apply in_flat_map in Hp as (change & Hchange & Hp).
  unfold messages_of_change in Hp. apply in_map_iff in Hp as (m' & [= <- <-] & Hm).
  exists entry, change. simpl. repeat split; auto.
  unfold change_channel. apply js_or_null.
Qed.

Lemma extracted_records_come_from_envelope_witness :
  exists r1 r2,
    extractInboundMessages 0 scenario_envelope = Ok [r1; r2]
    /\ exists entry change,
         In entry (visited (get scenario_envelope "entry"))
         /\ In change (visited (get entry "changes"))
         /\ In (raw_message r2) (visited (change_messages change))
         /\ phone_number_id r2 = change_channel change.
Proof.
  exists (record_of 0 (VStr "CH1", text_message "m1" "hi")),
         (record_of 0 (VStr "CH1", interactive_message "m2" "button_reply")).
  split; [reflexivity|].
  destruct (extracted_records_come_from_envelope 0 scenario_envelope _ _ eq_refl
              (or_intror (or_introl eq_refl)))
    as (entry & change & H1 & H2 & H3 & H4 & _).
  exists entry, change. auto.
Defined.

(** X10. Extracted records are normalised: the message type is never
    missing; sender, channel id and text are either null or truthy (never
    undefined, never an empty string); a text is only present for the types
    "text", "button" and "interactive"; and the time is the provider's
    timestamp when the message has a truthy one, the clock otherwise. *)
Theorem extracted_records_are_normalised (now : Z) (webhookBody : value)
        (rs : list inbound) (r : inbound) :
  extractInboundMessages now webhookBody = Ok rs -> In r rs ->
  truthy (msg_type r) = true
  /\ (sender_phone r = VNull \/ truthy (sender_phone r) = true)
  /\ (phone_number_id r = VNull \/ truthy (phone_number_id r) = true)
  /\ (text r = VNull \/ truthy (text r) = true)
  /\ (text r <> VNull ->
      msg_type r = VStr "text" \/ msg_type r = VStr "button"
      \/ msg_type r = VStr "interactive")
  /\ (if truthy (get (raw_message r) "timestamp")
      then ts r = DateOfSeconds (get (raw_message r) "timestamp")
      else ts r = DateNow now).
Proof.
  intros Hex Hin. destruct (extracted_pair _ _ _ _ Hex Hin) as (ch & m & Hp & ->).
  assert (Hch : ch = VNull \/ truthy ch = true).
  { unfold messages_of in Hp. apply in_flat_map in Hp as (entry & _ & Hp).
    unfold messages_of_entry in Hp. apply in_flat_map in Hp as (change & _ & Hp).
    unfold messages_of_change in Hp. apply in_map_iff in Hp as (m' & [= <- _] & _).
    apply js_or_null. }
  simpl. split; [|split; [|split; [|split; [|split]]]].
  - unfold js_or. destruct (truthy (get m "type")) eqn:T; auto.
  - apply js_or_null.
  - exact Hch.
  - unfold text_of.
    destruct (strict_eq _ (VStr "text")); [apply js_or_null|].
    destruct (strict_eq _ (VStr "button")); [apply js_or_null|].
    destruct (strict_eq _ (VStr "interactive")); [apply js_or_null | now left].
  - unfold text_of. intros Ht.
    destruct (strict_eq _ (VStr "text")) eqn:E1;
      [left; now apply strict_eq_string in E1|].
    destruct (strict_eq _ (VStr "button")) eqn:E2;
      [right; left; now apply strict_eq_string in E2|].
    destruct (strict_eq _ (VStr "interactive")) eqn:E3;
      [right; right; now apply strict_eq_string in E3|].
    now elim Ht.
  - destruct (truthy (get m "timestamp")); reflexivity.
Qed.

Lemma extracted_records_are_normalised_witness :
  exists r,
    extractInboundMessages 7 untyped_envelope = Ok [r]
    /\ truthy (msg_type r) = true
    /\ (sender_phone r = VNull \/ truthy (sender_phone r) = true).
Proof.
  eexists. split; [reflexivity|].
  destruct (extracted_records_are_normalised 7 untyped_envelope _ _ eq_refl
              (or_introl eq_refl)) as (H1 & H2 & _).
  split; [exact H1 | exact H2].
Defined.

Lemma shaped_entries (es : list value) :
  shaped (entries_envelope es) = forallb shaped_entry es.
Proof. reflexivity. Qed.

Lemma messages_of_entries (es : list value) :
  messages_of (entries_envelope es) = flat_map messages_of_entry es.
Proof. reflexivity. Qed.

(** X11. Extraction composes over the entries of an envelope: the records
    of two lists of entries put one after the other are the records of the
    first followed by the records of the second, and the whole throws as
    soon as one part does. *)
Theorem extraction_composes_over_entries (now : Z) (es1 es2 : list value) :
  extractInboundMessages now (entries_envelope (es1 ++ es2))
  = match extractInboundMessages now (entries_envelope es1),
          extractInboundMessages now (entries_envelope es2) with
    | Ok rs1, Ok rs2 => Ok (rs1 ++ rs2)
    | _, _ => Throw TypeError
    end.
Proof.
  rewrite !extract_spec, !shaped_entries, !messages_of_entries, forallb_app.
  destruct (forallb shaped_entry es1); simpl; [|reflexivity].
  destruct (forallb shaped_entry es2); simpl; [|reflexivity].
  now rewrite flat_map_app, map_app.
Qed.

Lemma record_same_but_ts (now now' : Z) (p : value * value) :
  same_but_ts (record_of now p) (record_of now' p).
Proof. repeat split. Qed.

(** X12. The clock only ever shows in the time field: read at another
    instant, extraction succeeds or throws alike and returns records that
    agree on every other field; when every message carries a truthy
    timestamp the result does not depend on the clock at all. *)
Theorem extraction_depends_on_clock_only_for_ts (now now' : Z) (webhookBody : value) :
  (forall rs, extractInboundMessages now webhookBody = Ok rs ->
     exists rs', extractInboundMessages now' webhookBody = Ok rs'
                 /\ Forall2 same_but_ts rs rs')
  /\ (forall e, extractInboundMessages now webhookBody = Throw e ->
                extractInboundMessages now' webhookBody = Throw e)
  /\ ((forall p, In p (messages_of webhookBody) ->
                 truthy (get (snd p) "timestamp") = true) ->
      extractInboundMessages now webhookBody = extractInboundMessages now' webhookBody).
Proof.
  rewrite !extract_spec. destruct (shaped webhookBody).
  - split; [|split].
    + intros rs [= <-]. eexists. split; [reflexivity|].
      induction (messages_of webhookBody) as [|p ps IH]; simpl; constructor; auto.
      apply record_same_but_ts.
    + discriminate.
    + intros Hts. f_equal. apply map_ext_in. intros [ch m] Hin.
      specialize (Hts _ Hin). simpl in Hts.
      unfold record_of, message_record. simpl. now rewrite Hts.
  - split; [|split]; auto. discriminate.
Qed.

Lemma extraction_depends_on_clock_only_for_ts_witness :
  (forall p, In p (messages_of scenario_envelope) ->
             truthy (get (snd p) "timestamp") = true)
  /\ extractInboundMessages 0 scenario_envelope
     = extractInboundMessages 1700000123 scenario_envelope.
Proof.
  assert (H : forall p, In p (messages_of scenario_envelope) ->
                        truthy (get (snd p) "timestamp") = true).
  { intros p [<-|[<-|[]]]; reflexivity. }
  split; [exact H|].
  exact (proj2 (proj2 (extraction_depends_on_clock_only_for_ts 0 1700000123
                         scenario_envelope)) H).
Defined.

(* ------------------------------------------------------------------------- *)
(** * Deliveries against the collection *)

(** A delivery executes the operations of the records it extracted, when
    the signature verifies, extraction does not throw and the batch can be
    built; it does nothing otherwise. *)
Lemma deliver_spec (cfg : config) (now t : Z) (req : request) (c : collection) :
  deliver cfg now t req c
  = match verifyMetaSignature req (metaAppSecret cfg) with
    | Ok true =>
        if shaped (body req)
        then match build_ops (phoneHashSalt cfg)
                     (map (record_of now) (messages_of (body req))) with
             | Ok ops => run (map (pair t) ops) c
             | Throw _ => c
             end
        else c
    | _ => c
    end.
Proof.
  unfold deliver, post_handler. rewrite extract_spec.
  destruct (verifyMetaSignature req (metaAppSecret cfg)) as [[|]|e]; simpl; auto.
  destruct (shaped (body req)); auto.
  set (msgs := map (record_of now) (messages_of (body req))).
  destruct msgs as [|m0 msgs'] eqn:E; [reflexivity|].
  cbv beta iota delta [List.length Nat.eqb]. fold (@List.length inbound).
  destruct (build_ops (phoneHashSalt cfg) (m0 :: msgs')) as [[|o ops]|e]; reflexivity.
Qed.

(** Whether the batch can be built, and the ids it is filtered by, do not
    depend on the instant of extraction. *)
Lemma build_ops_clock (salt : option string) (now now' : Z) (ms : list (value * value))
      (ops' : list op) :
  build_ops salt (map (record_of now') ms) = Ok ops' ->
  exists ops, build_ops salt (map (record_of now) ms) = Ok ops
              /\ map filter_id ops = map filter_id ops'.
Proof.
  unfold build_ops. revert ops'. induction ms as [|p ms IH]; intros ops'; simpl.
  - intros [= <-]. exists []. auto.
  - destruct (truthy (get (snd p) "id")); [|apply IH]. simpl.
    rewrite !to_op_cases. simpl sender_phone.
    destruct (hashPhone (js_or (get (snd p) "from") VNull) (of_env salt)) as [hash|e];
      simpl; [|discriminate].
    destruct (map_throwing (to_op salt)
                (filter (fun m => truthy (wa_message_id m)) (map (record_of now') ms)))
      as [rest'|e] eqn:E'; simpl; [|discriminate].
    intros [= <-]. destruct (IH rest' eq_refl) as (rest & -> & Hids). simpl.
    eexists. split; [reflexivity|]. simpl. now rewrite Hids.
Qed.

Lemma upsert_ids_grow (t : Z) (o : op) (c : collection) (id : value) :
  In id (stored_ids c) -> In id (stored_ids (upsert t o c)).
Proof.
  intros H. destruct (upsert_cases t o c) as [[_ ->]|[_ ->]].
  - now rewrite touch_ids.
  - unfold stored_ids in *. rewrite map_app. apply in_or_app. now left.
Qed.

Lemma run_ids_grow (schedule : list (Z * op)) (c : collection) (id : value) :
  In id (stored_ids c) -> In id (stored_ids (run schedule c)).
Proof.
  revert c. induction schedule as [|[t o] s IH]; intros c H; simpl; auto.
  apply IH. now apply upsert_ids_grow.
Qed.

Lemma upsert_stores (t : Z) (o : op) (c : collection) :
  keyed o -> In (filter_id o) (stored_ids (upsert t o c)).
Proof.
  intros Hk. destruct (upsert_cases t o c) as [[H ->]|[_ ->]].
  - now rewrite touch_ids.
  - unfold stored_ids. rewrite map_app. apply in_or_app. right. simpl. now left.
Qed.

Lemma run_stores (schedule : list (Z * op)) (c : collection) (o : op) :
  Forall keyed (map snd schedule) -> In o (map snd schedule) ->
  In (filter_id o) (stored_ids (run schedule c)).
Proof.
  revert c. induction schedule as [|[t x] s IH]; intros c Hk Hin; [contradiction|].
  simpl in *. inversion Hk as [|? ? Hx Hrest]; subst.
  destruct Hin as [->|Hin]; [|now apply IH].
  apply run_ids_grow. now apply upsert_stores.
Qed.

(** Operations on ids that are all stored only refresh [updatedAt]. *)
Lemma run_refreshes (schedule : list (Z * op)) (c : collection) :
  (forall o, In o (map snd schedule) -> In (filter_id o) (stored_ids c)) ->
  map core (run schedule c) = map core c
  /\ forall s', In s' (run schedule c) ->
                In s' c \/ In (updatedAt s') (map fst schedule).
Proof.
  revert c. induction schedule as [|[t o] sch IH]; intros c H; simpl.
  - split; auto.
  - destruct (upsert_cases t o c) as [[_ E]|[Hnew _]];
      [|elim Hnew; apply H; now left].
    rewrite E.
    assert (Hids : forall o', In o' (map snd sch) ->
                              In (filter_id o') (stored_ids (touch (filter_id o) t c))).
    { intros o' Ho'. rewrite touch_ids. apply H. now right. }
    destruct (IH _ Hids) as [Hcore Hup]. split.
    + rewrite Hcore. apply touch_core.
    + intros s' Hs'. destruct (Hup s' Hs') as [Hin|Hin]; [|auto].
      clear - Hin. induction c as [|x c IHc]; simpl in Hin; [contradiction|].
      destruct (matches (filter_id o) x).
      * destruct Hin as [<-|Hin]; [right; left; reflexivity | left; now right].
      * destruct Hin as [<-|Hin]; [left; now left|].
        destruct (IHc Hin) as [H1|H1]; [left; now right | now right].
Qed.

Lemma map_snd_pair (t : Z) (ops : list op) : map snd (map (pair t) ops) = ops.
Proof. rewrite map_map. simpl. apply map_id. Qed.

Lemma map_fst_pair (t : Z) (ops : list op) (x : Z) :
  In x (map fst (map (pair t) ops)) -> x = t.
Proof. rewrite map_map. simpl. intros H. apply in_map_iff in H as (o & <- & _). reflexivity. Qed.

(** X13. Delivering the same request again, at any later instant, adds no
    record and changes no document and no creation date: the collection
    after the second delivery differs from the collection after the first
    at most in the [updatedAt] of records, which is then the instant of the
    second [bulkWrite]. *)
Theorem redelivery_only_refreshes_updatedAt (cfg : config) (now t now' t' : Z)
        (req : request) (c : collection) :
  map core (deliver cfg now' t' req (deliver cfg now t req c))
  = map core (deliver cfg now t req c)
  /\ forall s', In s' (deliver cfg now' t' req (deliver cfg now t req c)) ->
                In s' (deliver cfg now t req c) \/ updatedAt s' = t'.
Proof.
  rewrite (deliver_spec cfg now' t'), (deliver_spec cfg now t).
  destruct (verifyMetaSignature req (metaAppSecret cfg)) as [[|]|e]; auto.
  destruct (shaped (body req)); auto.
  set (ms := messages_of (body req)).
  destruct (build_ops (phoneHashSalt cfg) (map (record_of now') ms)) as [ops'|e] eqn:E';
    [|auto].
  destruct (build_ops_clock _ now now' _ _ E') as (ops & E & Hids). rewrite E.
  assert (Hstored : forall o', In o' (map snd (map (pair t') ops')) ->
                      In (filter_id o') (stored_ids (run (map (pair t) ops) c))).
  { intros o' Ho'. rewrite map_snd_pair in Ho'.
    apply (in_map filter_id) in Ho'. rewrite <- Hids in Ho'.
    apply in_map_iff in Ho' as (o & <- & Ho).
    apply run_stores; rewrite map_snd_pair; [now apply build_ops_keyed in E | exact Ho]. }
  destruct (run_refreshes _ _ Hstored) as [Hcore Hup]. split; [exact Hcore|].
  intros s' Hs'. destruct (Hup s' Hs') as [H|H]; [now left|].
  right. now apply map_fst_pair in H.
Qed.

Lemma run_appends (schedule : list (Z * op)) (c : collection) :
  exists added,
    map core (run schedule c) = map core c ++ map core added
    /\ incl (map document added) (map setOnInsert (map snd schedule)).
Proof.
  revert c. induction schedule as [|[t o] s IH]; intros c; simpl.
  - exists []. split; [now rewrite app_nil_r | apply incl_nil_l].
  - destruct (IH (upsert t o c)) as (added & Hcore & Hincl). rewrite Hcore.
    destruct (upsert_cases t o c) as [[_ ->]|[_ ->]].
    + exists added. rewrite touch_core. split; auto. now apply incl_tl.
    + exists ({| document := setOnInsert o; createdAt := t; updatedAt := t |} :: added).
      rewrite map_app. simpl. rewrite <- app_assoc. split; [reflexivity|].
      apply incl_cons; [now left | now apply incl_tl].
Qed.

(** X14. A delivery only appends: the documents and creation dates stored
    before are still there, in the same order, followed by those of the new
    records, which are inbound and carry an id; and a collection with
    distinct ids keeps distinct ids. *)
Theorem deliver_only_appends_inbound_records (cfg : config) (now t : Z) (req : request)
        (c : collection) :
  (exists added,
     map core (deliver cfg now t req c) = map core c ++ map core added
     /\ Forall (fun s => inbound_doc (document s)) added)
  /\ (NoDup (stored_ids c) -> NoDup (stored_ids (deliver cfg now t req c))).
Proof.
  rewrite deliver_spec.
  assert (Hnone : exists added : collection,
             map core c = map core c ++ map core added
             /\ Forall (fun s => inbound_doc (document s)) added)
    by (exists []; split; [now rewrite app_nil_r | constructor]).
  destruct (verifyMetaSignature req (metaAppSecret cfg)) as [[|]|e]; auto.
  destruct (shaped (body req)); auto.
  destruct (build_ops (phoneHashSalt cfg) (map (record_of now) (messages_of (body req))))
    as [ops|e] eqn:E; auto.
  split.
  - destruct (run_appends (map (pair t) ops) c) as (added & Hcore & Hincl).
    exists added. split; [exact Hcore|].
    apply Forall_forall. intros s Hs.
    assert (Hd : In (document s) (map setOnInsert (map snd (map (pair t) ops))))
      by (apply Hincl; now apply in_map).
    rewrite map_snd_pair in Hd. apply in_map_iff in Hd as (o & <- & Ho).
    destruct (build_ops_have_id _ _ _ _ E Ho) as (Hid & Hk & Hdir).
    split; [exact Hdir | now rewrite Hk].
  - intros Hc. apply run_unique; [|exact Hc].
    rewrite map_snd_pair. now apply build_ops_keyed in E.
Qed.

(** The scenario of the specification, delivered twice: two records after
    the first delivery, none added by the second, which only moves
    [updatedAt]. *)
Example scenario_delivered_twice :
  let c1 := deliver open_config 0 1 (delivery scenario_envelope) [] in
  let c2 := deliver open_config 5 6 (delivery scenario_envelope) c1 in
  stored_ids c1 = [VStr "m1"; VStr "m2"]
  /\ map (fun s => d_text (document s)) c1 = [VStr "hi"; VStr "button_reply"]
  /\ map core c2 = map core c1
  /\ map updatedAt c1 = [1; 1] /\ map updatedAt c2 = [6; 6].
Proof. vm_compute. repeat split. Qed.

(* ------------------------------------------------------------------------- *)
(** * Readiness and start-up *)

Lemma strict_eq_one (v : value) : strict_eq v (VNum 1) = true <-> v = VNum 1.
Proof.
  destruct v; simpl; try (split; [discriminate | intros H; discriminate H]).
  rewrite Z.eqb_eq. split; [now intros -> | now intros [= ->]].
Qed.

(** X15. The readiness probe answers 200 exactly when the connection's
    [readyState] is the number 1, and 503 in every other case (no
    connection, another state, the string "1"); the [mongo] flag of the body
    says the same as the status. *)
Theorem readyz_reports_connection (connection : value) :
  (status (readyz_handler connection) = 200 <-> get connection "readyState" = VNum 1)
  /\ (status (readyz_handler connection) = 503 <-> get connection "readyState" <> VNum 1)
  /\ sent (readyz_handler connection)
     = VObj [("mongo", VBool (status (readyz_handler connection) =? 200))].
Proof.
  unfold readyz_handler, mongoReady.
  destruct (strict_eq (get connection "readyState") (VNum 1)) eqn:E; simpl.
  - apply strict_eq_one in E. repeat split; auto; try discriminate.
    intros H. contradiction.
  - assert (N : get connection "readyState" <> VNum 1).
    { intros H. apply strict_eq_one in H. congruence. }
    repeat split; auto; try discriminate. intros H. contradiction.
Qed.

Example readyz_states :
  map (fun c => status (readyz_handler c))
      [VObj [("readyState", VNum 1)]; VObj [("readyState", VNum 2)];
       VObj [("readyState", VStr "1")]; VUndefined]
  = [200; 503; 503; 503].
Proof. reflexivity. Qed.

Lemma env_missing_false (x : option string) :
  env_missing x = false -> exists s, x = Some s /\ s <> EmptyString.
Proof.
  destruct x as [[|c s]|]; try discriminate. intros _. eexists. split; eauto. discriminate.
Qed.

Lemma env_present (s : string) : s <> EmptyString -> env_missing (Some s) = false.
Proof. destruct s; [contradiction | reflexivity]. Qed.

Lemma connectMongo_present (connect : string -> Z -> option string) (uri : string) :
  uri <> EmptyString ->
  connectMongo connect (Some uri)
  = ([SetStrictQuery true; Connect uri 10000], connect uri 10000).
Proof. destruct uri; [contradiction | reflexivity]. Qed.

(** X16. What start-up does, in the order the script decides it.  Without
    a verify token it exits with code 1, whatever else is configured.
    With a token but without a database URI it exits with code 1.  With
    both, it connects with the configured URI and a 10 s server-selection
    timeout: when the database refuses, start-up stops with the
    database's error; when the port cannot be bound, it stops with that
    error; otherwise the server listens, on PORT or else on 3000, with
    the configured token and with a string (possibly empty) for the app
    secret and for the salt.  Conversely a listening server had a
    non-empty token and URI, an accepted connection and a bound port. *)
Theorem main_outcomes (connect : string -> Z -> option string)
        (listen : value -> option string) (e : process_env) :
  let port := match PORT e with
              | Some (String c s) => VStr (String c s)
              | _ => VNum 3000
              end in
  let cfg := {| verifyToken := VERIFY_TOKEN e;
                metaAppSecret := Some (env_or (META_APP_SECRET e) EmptyString);
                phoneHashSalt := Some (env_or (PHONE_HASH_SALT e) EmptyString) |} in
  (env_missing (VERIFY_TOKEN e) = true ->
   main connect listen e = Exited 1 "VERIFY_TOKEN is missing")
  /\ (env_missing (VERIFY_TOKEN e) = false -> env_missing (MONGODB_URI e) = true ->
      main connect listen e = Exited 1 "MONGODB_URI is missing")
  /\ (forall uri message,
        env_missing (VERIFY_TOKEN e) = false ->
        MONGODB_URI e = Some uri -> uri <> EmptyString ->
        connect uri 10000 = Some message ->
        main connect listen e = Rejected message)
  /\ (forall uri message,
        env_missing (VERIFY_TOKEN e) = false ->
        MONGODB_URI e = Some uri -> uri <> EmptyString ->
        connect uri 10000 = None -> listen port = Some message ->
        main connect listen e = ListenFailed message)
  /\ (forall uri,
        env_missing (VERIFY_TOKEN e) = false ->
        MONGODB_URI e = Some uri -> uri <> EmptyString ->
        connect uri 10000 = None -> listen port = None ->
        main connect listen e
        = Listening port cfg [SetStrictQuery true; Connect uri 10000])
  /\ (forall port' cfg' calls,
        main connect listen e = Listening port' cfg' calls ->
        exists token uri,
          VERIFY_TOKEN e = Some token /\ token <> EmptyString
          /\ MONGODB_URI e = Some uri /\ uri <> EmptyString
          /\ connect uri 10000 = None /\ listen port = None
          /\ port' = port /\ cfg' = cfg
          /\ calls = [SetStrictQuery true; Connect uri 10000]).
Proof.
  intros port cfg. unfold main. fold port.
  split; [|split; [|split; [|split; [|split]]]].
  - now intros ->.
  - now intros -> ->.
  - intros uri message Ht Hu Hne Hc.
    rewrite Ht, Hu, (env_present uri Hne), (connectMongo_present _ _ Hne), Hc. reflexivity.
  - intros uri message Ht Hu Hne Hc Hl.
    rewrite Ht, Hu, (env_present uri Hne), (connectMongo_present _ _ Hne), Hc, Hl.
    reflexivity.
  - intros uri Ht Hu Hne Hc Hl.
    rewrite Ht, Hu, (env_present uri Hne), (connectMongo_present _ _ Hne), Hc, Hl.
    reflexivity.
  - intros port' cfg' calls.
    destruct (env_missing (VERIFY_TOKEN e)) eqn:Ht; [discriminate|].
    destruct (env_missing (MONGODB_URI e)) eqn:Hu; [discriminate|].
    apply env_missing_false in Ht as (token & Ht & Htne).
    apply env_missing_false in Hu as (uri & Hu & Hune).
    rewrite Hu, (connectMongo_present _ _ Hune).
    destruct (connect uri 10000) as [m|] eqn:Hc; [discriminate|].
    destruct (listen port) as [m|] eqn:Hl; [discriminate|].
    intros [= <- <- <-]. exists token, uri. repeat split; auto.
Qed.

Lemma main_outcomes_witness :
  env_missing (VERIFY_TOKEN production_env) = false
  /\ MONGODB_URI production_env = Some "mongodb://db.internal/wa"
  /\ main reachable bindable production_env
     = Listening (VStr "8080")
         {| verifyToken := Some "hunter2"; metaAppSecret := Some EmptyString;
            phoneHashSalt := Some "pepper" |}
         [SetStrictQuery true; Connect "mongodb://db.internal/wa" 10000]
  /\ main reachable (fun _ => Some "listen EADDRINUSE") production_env
     = ListenFailed "listen EADDRINUSE".
Proof.
  split; [reflexivity|]. split; [reflexivity|]. split.
  - apply (proj1 (proj2 (proj2 (proj2 (proj2
             (main_outcomes reachable bindable production_env)))))
             "mongodb://db.internal/wa"); try reflexivity. discriminate.
  - apply (proj1 (proj2 (proj2 (proj2
             (main_outcomes reachable (fun _ => Some "listen EADDRINUSE") production_env))))
             "mongodb://db.internal/wa"); try reflexivity. discriminate.
Defined.

Lemma listening_config (connect : string -> Z -> option string)
      (listen : value -> option string) (e : process_env)
      (port : value) (cfg : config) (calls : list mongoose_call) :
  main connect listen e = Listening port cfg calls ->
  env_missing (VERIFY_TOKEN e) = false
  /\ cfg = {| verifyToken := VERIFY_TOKEN e;
              metaAppSecret := Some (env_or (META_APP_SECRET e) EmptyString);
              phoneHashSalt := Some (env_or (PHONE_HASH_SALT e) EmptyString) |}.
Proof.
  unfold main.
  destruct (env_missing (VERIFY_TOKEN e)); [discriminate|].
  destruct (env_missing (MONGODB_URI e)); [discriminate|].
  destruct (connectMongo connect (MONGODB_URI e)) as [cs [m|]]; [discriminate|].
  destruct (listen _) as [m|]; [discriminate|].
  intros [= _ <- _]. auto.
Qed.

(** X17. On a server that start-up let through, a GET is answered 200
    only when it carries the configured, non-empty token as a string:
    a request without [hub.verify_token] is always answered 403.  (The
    router alone, given no token, would accept such a request.) *)
Theorem started_server_needs_the_token (connect : string -> Z -> option string)
        (listen : value -> option string)
        (e : process_env) (port : value) (cfg : config) (calls : list mongoose_call)
        (req : request) :
  main connect listen e = Listening port cfg calls ->
  (status (get_handler cfg req) = 200 ->
   get (query req) "hub.mode" = VStr "subscribe"
   /\ exists token, token <> EmptyString
                    /\ VERIFY_TOKEN e = Some token
                    /\ get (query req) "hub.verify_token" = VStr token)
  /\ (get (query req) "hub.verify_token" = VUndefined ->
      status (get_handler cfg req) = 403).
Proof.
  intros Hmain. destruct (listening_config _ _ _ _ _ _ Hmain) as [Ht ->].
  apply env_missing_false in Ht as (token & Ht & Hne).
  unfold get_handler. simpl verifyToken. rewrite Ht. simpl of_env.
  destruct (strict_eq (get (query req) "hub.mode") (VStr "subscribe")) eqn:Em;
    destruct (strict_eq (get (query req) "hub.verify_token") (VStr token)) eqn:Et; simpl;
    split; try discriminate; auto.
  - intros _. apply strict_eq_string in Em. apply strict_eq_string in Et. eauto.
  - intros Hu. rewrite Hu in Et. discriminate Et.
Qed.

Lemma started_server_needs_the_token_witness :
  main reachable bindable production_env
  = Listening (VStr "8080")
      {| verifyToken := Some "hunter2"; metaAppSecret := Some EmptyString;
         phoneHashSalt := Some "pepper" |}
      [SetStrictQuery true; Connect "mongodb://db.internal/wa" 10000]
  /\ status (get_handler {| verifyToken := Some "hunter2"; metaAppSecret := Some EmptyString;
                            phoneHashSalt := Some "pepper" |} tokenless_request) = 403.
Proof.
  split; [reflexivity|].
  apply (proj2 (started_server_needs_the_token reachable bindable production_env _ _ _
                  tokenless_request eq_refl)).
  reflexivity.
Defined.

Example router_without_token_accepts_tokenless_request :
  status (get_handler {| verifyToken := None; metaAppSecret := None; phoneHashSalt := None |}
                      tokenless_request) = 200.
Proof. reflexivity. Qed.

(** X18. On a server started without META_APP_SECRET (unset or empty),
    every POST is acknowledged with 200, whatever its signature header;
    on a server started with a secret, a POST without signature header is
    answered 403 and left unprocessed. *)
Theorem started_server_checks_signatures_only_with_secret
        (connect : string -> Z -> option string) (listen : value -> option string)
        (e : process_env) (port : value)
        (cfg : config) (calls : list mongoose_call)
        (bulkWrite : list op -> result unit) (now : Z) (req : request) :
  main connect listen e = Listening port cfg calls ->
  (env_missing (META_APP_SECRET e) = true ->
   exists out, post_handler cfg bulkWrite now req = Ok out /\ reply out = sendStatus 200)
  /\ (env_missing (META_APP_SECRET e) = false -> signature_header req = None ->
      post_handler cfg bulkWrite now req
      = Ok {| reply := sendStatus 403; written := []; logged := [] |}).
Proof.
  intros Hmain. destruct (listening_config _ _ _ _ _ _ Hmain) as [_ ->]. split.
  - intros Hs.
    assert (Hv : verifyMetaSignature req (Some (env_or (META_APP_SECRET e) EmptyString))
                 = Ok true)
      by (destruct (META_APP_SECRET e) as [[|c s]|]; try discriminate; reflexivity).
    destruct (post_handler_total
                {| verifyToken := VERIFY_TOKEN e;
                   metaAppSecret := Some (env_or (META_APP_SECRET e) EmptyString);
                   phoneHashSalt := Some (env_or (PHONE_HASH_SALT e) EmptyString) |}
                bulkWrite now req) as [out Hout].
    exists out. split; [exact Hout|].
    destruct (post_handler_reply _ _ _ _ _ Hout) as [(Hv' & _)|(_ & Hr)];
      [simpl metaAppSecret in Hv'; rewrite Hv in Hv'; discriminate Hv' | exact Hr].
  - intros Hs Hnone. apply env_missing_false in Hs as (s & Hs & Hne).
    destruct s as [|c s]; [contradiction|].
    unfold post_handler, verifyMetaSignature. simpl metaAppSecret.
    rewrite Hs, Hnone. reflexivity.
Qed.

Lemma started_server_checks_signatures_only_with_secret_witness :
  env_missing (META_APP_SECRET production_env) = true
  /\ exists out,
       post_handler {| verifyToken := Some "hunter2"; metaAppSecret := Some EmptyString;
                       phoneHashSalt := Some "pepper" |}
                    resolving 0 near_miss_request = Ok out
       /\ reply out = sendStatus 200.
Proof.
  split; [reflexivity|].
  apply (proj1 (started_server_checks_signatures_only_with_secret reachable bindable
                  production_env _ _ _ resolving 0 near_miss_request eq_refl)).
  reflexivity.
Defined.

(* ------------------------------------------------------------------------- *)
(** * Instances *)

Lemma post_handler_acknowledges_witness :
  exists out,
    post_handler demo_config resolving 0 near_miss_request = Ok out
    /\ status (reply out) = 403 /\ written out = [] /\ logged out = [].
Proof.
  destruct (post_handler_acknowledges demo_config resolving 0 near_miss_request)
    as (out & Hout & _ & H403 & Hnothing).
  assert (Hv : verifyMetaSignature near_miss_request (metaAppSecret demo_config) = Ok false)
    by (vm_compute; reflexivity).
  exists out. split; [exact Hout|]. split; [now apply H403 | now apply Hnothing].
Defined.

Lemma deliver_only_appends_inbound_records_witness :
  NoDup (stored_ids [])
  /\ NoDup (stored_ids (deliver open_config 0 1 (delivery scenario_envelope) [])).
Proof.
  assert (H0 : NoDup (stored_ids [])) by constructor.
  destruct (deliver_only_appends_inbound_records open_config 0 1
              (delivery scenario_envelope) []) as (_ & Hu).
  split; [exact H0 | now apply Hu].
Defined.

Lemma readyz_reports_connection_witness :
  get (VObj [("readyState", VNum 1)]) "readyState" = VNum 1
  /\ status (readyz_handler (VObj [("readyState", VNum 1)])) = 200.
Proof.
  split; [reflexivity|].
  apply (proj1 (readyz_reports_connection (VObj [("readyState", VNum 1)]))). reflexivity.
Defined.
